(** * TODO-Tok: the incremental TODO discovery and indexing engine

    A shallow embedding of [src/services/todo-manager.ts],
    [src/services/todo-finder.ts] and of the loading, navigation and
    [complete] branches of the webview panel's message handler, with the
    properties of the specification, and further properties of the
    code, stated over it.

    Conventions of the embedding.
    - Text is a [string] of 8-bit code units; the regular expression of
      the extractor only names ASCII characters, for which the
      case-insensitive comparison of flag [i] and [toUpperCase] are the
      ASCII ones.
    - [Map<string, FileCache>] and the object [TodosByFile] are [gmap]s
      keyed by the file path, [Set<string>] is a [gset].
    - The host (VS Code workspace, file system, git) is a record of
      functions, a snapshot of the outside world seen by one call; a
      throwing call is [None].
    - [async] methods are state-passing functions; the fire-and-forget
      call of [processRemainingFiles] is returned as a pending
      continuation, to be run later (or interleaved with another scan). *)

From Stdlib Require Import Ascii String List ZArith Lia Bool Arith Sorted.
From stdpp Require Import base gmap strings list.
Import ListNotations.

Open Scope string_scope.
Open Scope nat_scope.

(** ** Characters and strings as JavaScript sees them *)

Module Js.

(** [WhiteSpace] and [LineTerminator] code units below 256: what [\s]
    matches and what [String.prototype.trim] strips. *)
Definition isSpace (c : ascii) : bool :=
  let n := nat_of_ascii c in
  ((9 <=? n) && (n <=? 13)) || (n =? 32) || (n =? 160).

(** Line terminators below 256: what [.] refuses and where [$] of flag
    [m] holds. *)
Definition isLineTerminator (c : ascii) : bool :=
  let n := nat_of_ascii c in (n =? 10) || (n =? 13).

Definition upper (c : ascii) : ascii :=
  let n := nat_of_ascii c in
  if (97 <=? n) && (n <=? 122) then ascii_of_nat (n - 32) else c.

Fixpoint toUpperCase (s : string) : string :=
  match s with
  | EmptyString => EmptyString
  | String c s' => String (upper c) (toUpperCase s')
  end.

Fixpoint trimStart (s : string) : string :=
  match s with
  | String c s' => if isSpace c then trimStart s' else s
  | EmptyString => EmptyString
  end.

(** Strip trailing white space: a character is kept when it is not white
    space or when something is kept after it. *)
Fixpoint trimEnd (s : string) : string :=
  match s with
  | EmptyString => EmptyString
  | String c s' =>
      match trimEnd s' with
      | EmptyString => if isSpace c then EmptyString else String c EmptyString
      | t => String c t
      end
  end.

Definition trim (s : string) : string := trimEnd (trimStart s).

(** Truthiness of a string: the empty string is falsy. *)
Definition truthy (s : string) : bool :=
  match s with EmptyString => false | _ => true end.

(** [Array.prototype.slice(start, end)] for integer arguments: negative
    indices count from the end, both are clamped to [0, length]. *)
Definition relIndex (len i : Z) : Z :=
  if (i <? 0)%Z then Z.max (len + i) 0 else Z.min i len.

Definition slice {A} (l : list A) (start stop : Z) : list A :=
  let len := Z.of_nat (length l) in
  let k := relIndex len start in
  let final := relIndex len stop in
  firstn (Z.to_nat (Z.max (final - k) 0)) (skipn (Z.to_nat k) l).

End Js.

(** ** A backtracking matcher for the subset of ECMAScript regular
       expressions the extractor builds *)

Module Regex.

Inductive re : Type :=
| Eps                          (* the empty pattern *)
| Chr (c : ascii)              (* a literal character, under flag i *)
| Dot                          (* .  : anything but a line terminator *)
| Space                        (* \s *)
| OneOf (cs : list ascii)      (* [...], under flag i *)
| Eol                          (* $ under flag m *)
| Seq (r1 r2 : re)
| Alt (r1 r2 : re)             (* r1|r2, left first *)
| Opt (r : re)                 (* r?  greedy *)
| Star (r : re)                (* r*  greedy *)
| PlusLazy (r : re)            (* r+? lazy *)
| Grp (n : nat) (r : re).      (* the n-th capturing group *)

(** A literal string, and an alternation of several patterns. *)
Fixpoint lit (s : string) : re :=
  match s with
  | EmptyString => Eps
  | String c EmptyString => Chr c
  | String c s' => Seq (Chr c) (lit s')
  end.

Fixpoint alts (rs : list re) : re :=
  match rs with
  | [] => Eps
  | [r] => r
  | r :: rs' => Alt r (alts rs')
  end.

(** Number of capturing groups, and renumbering of the groups of a
    sub-pattern inserted after [k] opening parentheses. *)
Fixpoint ngroups (r : re) : nat :=
  match r with
  | Seq a b | Alt a b => ngroups a + ngroups b
  | Opt a | Star a | PlusLazy a => ngroups a
  | Grp _ a => S (ngroups a)
  | _ => 0
  end.

Fixpoint lift (k : nat) (r : re) : re :=
  match r with
  | Seq a b => Seq (lift k a) (lift k b)
  | Alt a b => Alt (lift k a) (lift k b)
  | Opt a => Opt (lift k a)
  | Star a => Star (lift k a)
  | PlusLazy a => PlusLazy (lift k a)
  | Grp n a => Grp (k + n) (lift k a)
  | _ => r
  end.

(** The matcher state: the index reached, the input left from there and
    the captures so far (latest binding first). *)
Record conf : Type := Conf {
  pos : nat;
  rest : list ascii;
  caps : list (nat * list ascii)
}.

Definition advance (c : conf) : conf :=
  Conf (S (pos c)) (tl (rest c)) (caps c).

Definition single (p : ascii -> bool) (k : conf -> option conf) (c : conf)
  : option conf :=
  match rest c with
  | x :: _ => if p x then k (advance c) else None
  | [] => None
  end.

Definition orElse (a b : option conf) : option conf :=
  match a with Some x => Some x | None => b end.

Definition ascii_eqb (a b : ascii) : bool := Ascii.eqb a b.

(** The iterations of a quantifier after its mandatory ones, over the
    matcher [body] of the quantified pattern: greedy (one more
    iteration first, the continuation [k] if that fails) and lazy (the
    continuation first). An iteration that consumes nothing is
    rejected, so from [c] at most [length (rest c)] iterations can
    follow one another, and that is the [fuel] given. *)
Section Loops.
Variable body : (conf -> option conf) -> conf -> option conf.
Variable k : conf -> option conf.

Fixpoint greedyLoop (fuel : nat) (c : conf) {struct fuel} : option conf :=
  match fuel with
  | 0 => k c
  | S fuel' =>
      orElse
        (body (fun c' => if pos c <? pos c' then greedyLoop fuel' c'
                         else None) c)
        (k c)
  end.

Fixpoint lazyLoop (fuel : nat) (c : conf) {struct fuel} : option conf :=
  match fuel with
  | 0 => k c
  | S fuel' =>
      orElse
        (k c)
        (body (fun c' => if pos c <? pos c' then lazyLoop fuel' c'
                         else None) c)
  end.

End Loops.

(** [run r k c]: match [r] from [c], then the continuation [k];
    alternatives are tried in the order of the ECMAScript backtracking
    semantics. *)
Fixpoint run (r : re) (k : conf -> option conf) (c : conf) : option conf :=
  match r with
  | Eps => k c
  | Chr a => single (fun x => ascii_eqb (Js.upper x) (Js.upper a)) k c
  | Dot => single (fun x => negb (Js.isLineTerminator x)) k c
  | Space => single Js.isSpace k c
  | OneOf cs =>
      single (fun x => existsb (fun y => ascii_eqb (Js.upper x) (Js.upper y))
                               cs) k c
  | Eol =>
      match rest c with
      | [] => k c
      | x :: _ => if Js.isLineTerminator x then k c else None
      end
  | Seq r1 r2 => run r1 (run r2 k) c
  | Alt r1 r2 => orElse (run r1 k c) (run r2 k c)
  | Opt r1 =>
      orElse (run r1 (fun c' => if pos c <? pos c' then k c' else None) c)
             (k c)
  | Star r1 => greedyLoop (run r1) k (length (rest c)) c
  | PlusLazy r1 => run r1 (lazyLoop (run r1) k (length (rest c))) c
  | Grp n r1 =>
      run r1 (fun c' =>
                k (Conf (pos c') (rest c')
                        ((n, firstn (pos c' - pos c) (rest c)) :: caps c')))
          c
  end.

(** Whether a pattern reads at least one character whenever it
    matches. *)
Fixpoint consumes (r : re) : bool :=
  match r with
  | Chr _ | Dot | Space | OneOf _ => true
  | Seq a b => consumes a || consumes b
  | Alt a b => consumes a && consumes b
  | Grp _ a | PlusLazy a => consumes a
  | _ => false
  end.

Definition step (b : bool) : nat := if b then 1 else 0.

(** [c1] is reached from [c] by reading at least [n] characters. *)
Definition reaches (n : nat) (c c1 : conf) : Prop :=
  pos c + n <= pos c1
  /\ pos c1 + length (rest c1) = pos c + length (rest c).

(** The result of one successful [exec]: [index], [match[0]] and the
    captures. *)
Record matchResult : Type := Match {
  index : nat;
  whole : string;
  groups : list (nat * list ascii)
}.

Definition group (m : matchResult) (n : nat) : option string :=
  match find (fun p => fst p =? n) (groups m) with
  | Some (_, s) => Some (string_of_list_ascii s)
  | None => None
  end.

Definition lastIndexOf (m : matchResult) : nat :=
  index m + String.length (whole m).

(** Try the pattern at index [i], where [input] is the text from [i]. *)
Definition matchAt (r : re) (i : nat) (input : list ascii)
  : option matchResult :=
  match run r Some (Conf i input []) with
  | Some c =>
      Some (Match i (string_of_list_ascii (firstn (pos c - i) input))
                  (caps c))
  | None => None
  end.

(** [regex.exec(text)] with flag [g], from [lastIndex = i]: the first
    index at or after [i] where the pattern matches. *)
Fixpoint execFrom (r : re) (i : nat) (input : list ascii)
  : option matchResult :=
  match matchAt r i input with
  | Some m => Some m
  | None =>
      match input with
      | [] => None
      | _ :: input' => execFrom r (S i) input'
      end
  end.

(** [while ((match = regex.exec(text)) !== null) ...]: the matches in
    order, each search starting at the [lastIndex] left by the one
    before. [fuel] bounds the number of iterations. *)
Fixpoint execLoop (fuel : nat) (r : re) (text : list ascii) (i : nat)
  : list matchResult :=
  match fuel with
  | 0 => []
  | S fuel' =>
      match execFrom r i (skipn i text) with
      | Some m => m :: execLoop fuel' r text (lastIndexOf m)
      | None => []
      end
  end.

End Regex.

(** ** The annotation extractor (the regular expression of
       [processBatch] and [findTodos]) *)

Module Extractor.
Import Regex.

Definition dquote : ascii := ascii_of_nat 34.
Definition tripleQuote : re := Seq (Chr dquote) (Seq (Chr dquote) (Chr dquote)).

(** The comment openers, in the order of the alternation: two slashes,
    slash-star, star, hash, the markup opener, three double quotes,
    three single quotes, two dashes, two percents, brace-dash,
    parenthesis-star and the semicolon. *)
Definition opener : re :=
  alts [lit "//"; lit "/*"; lit "*"; lit "#"; lit "<!--"; tripleQuote;
        lit "'''"; lit "--"; lit "%%"; lit "{-"; lit "(*"; lit ";"].

(** The closers, in order: star-slash, the markup closer, three double
    quotes, three single quotes, dash-brace, star-parenthesis, and the
    end of a line. *)
Definition closer : re :=
  alts [lit "*/"; lit "-->"; tripleQuote; lit "'''"; lit "-}"; lit "*)"; Eol].

(** The default of the [todoPattern] setting, a non-capturing
    alternation of the eleven markers. *)
Definition defaultPattern : re :=
  alts [lit "TODO"; lit "TO-DO"; lit "TO_DO"; lit "FIXME"; lit "FIX-ME";
        lit "FIX_ME"; lit "XXX"; lit "HACK"; lit "BUG"; lit "OPTIMIZE";
        lit "REVIEW"].

(** The regular expression built around the configured pattern, which is
    inserted inside the first capturing group; its own groups, if any,
    are numbered after it and push the message group further. *)
Definition todoRegex (pattern : re) : re :=
  Seq (Seq opener (Star Space))
   (Seq (Grp 1 (lift 1 pattern))
     (Seq (Opt (OneOf [":"; "_"; "-"]%char))
       (Seq (Star Space)
         (Seq (Grp (2 + ngroups pattern) (PlusLazy Dot))
           (Seq (Star Space) closer))))).

(** All matches of the regular expression in a text, as the [while]
    loop over [regex.exec] sees them. *)
Definition matches (pattern : re) (text : string) : list matchResult :=
  let t := list_ascii_of_string text in
  execLoop (S (length t)) (todoRegex pattern) t 0.

(** [match[n]] as a string, [undefined] read as the empty (falsy) one. *)
Definition capture (m : matchResult) (n : nat) : string :=
  match group m n with Some s => s | None => EmptyString end.

(** [if (match[1] && match[2])] *)
Definition emitted (m : matchResult) : bool :=
  Js.truthy (capture m 1) && Js.truthy (capture m 2).

(** [match[1].toUpperCase().trim()] and [match[2].trim()] *)
Definition todoType (m : matchResult) : string :=
  Js.trim (Js.toUpperCase (capture m 1)).

Definition todoText (m : matchResult) : string :=
  Js.trim (capture m 2).

(** What the loop body computes for a match that passes the guard:
    [match.index], [match.index + match[0].length], [todoType] and
    [todoText]. *)
Record candidate : Type := Candidate {
  startOffset : nat;
  endOffset : nat;
  kind : string;
  message : string
}.

Definition candidateOf (m : matchResult) : candidate :=
  Candidate (index m) (lastIndexOf m) (todoType m) (todoText m).

Definition extract (pattern : re) (text : string) : list candidate :=
  map candidateOf (List.filter emitted (matches pattern text)).

End Extractor.

(** ** The host: the part of the VS Code API the services call *)

Module Vscode.

Record Position : Type := mkPosition { line : nat; character : nat }.

Record Range : Type := mkRange { start : Position; end_ : Position }.

(** [vscode.window.show...Message] *)
Inductive Notice : Type :=
| ShowInformationMessage (s : string)
| ShowWarningMessage (s : string)
| ShowErrorMessage (s : string).

(** What one call sees of the outside world. A file is known by one
    string, its path ([uri.fsPath]); a call that throws or rejects is
    [None]. *)
Record Host : Type := mkHost {
  (* vscode.workspace.workspaceFolders is defined *)
  workspaceFolders : bool;
  (* the results of findFiles for every include glob, concatenated *)
  findFiles : option (list string);
  (* vscode.workspace.fs.stat(file).mtime *)
  statMtime : string -> option Z;
  (* vscode.workspace.openTextDocument(file).getText() *)
  openTextDocument : string -> option string;
  (* document.positionAt(offset), for the document with this text *)
  positionAt : string -> nat -> Position;
  asRelativePath : string -> string;
  (* getGitAuthor(file, line): absent when disabled or failing *)
  gitAuthor : string -> nat -> option string;
  (* Date.now() *)
  now : Z;
  (* config.get('todoPattern'), absent when unset or empty *)
  configTodoPattern : option Regex.re;
  (* vscode.workspace.applyEdit of the deletion of a range of a file *)
  applyEdit : string -> Range -> option bool
}.

End Vscode.

(** ** [TodoManager] ([src/services/todo-manager.ts]) *)

Module Manager.
Import Vscode Regex.

Record Todo : Type := mkTodo {
  text : string;
  file : string;
  line : nat;
  column : nat;
  range : Range;
  author : option string
}.

Record FileCache : Type := mkFileCache {
  lastChecked : Z;
  lastModified : Z
}.

Inductive State : Type := idle | searching | complete.

Record ProcessingStatus : Type := mkStatus {
  currentFile : option string;
  filesProcessed : nat;
  totalFiles : nat;
  state : State
}.

(** The fields of the class. [batchSize] is initialised to 20 and never
    assigned, so it is a constant here; the output channel and the
    status listeners only observe. *)
Record TodoManager : Type := mkManager {
  fileCache : gmap string FileCache;
  processedFiles : gset string;
  todos : list Todo;
  todosByFile : gmap string (list Todo);
  isProcessing : bool;
  todoPattern : re;
  status : ProcessingStatus
}.

Definition batchSize : nat := 20.

Definition idleStatus : ProcessingStatus := mkStatus None 0 0 idle.

(** Field updates. *)
Definition setFileCache (v : gmap string FileCache) (m : TodoManager) :=
  mkManager v (processedFiles m) (todos m) (todosByFile m) (isProcessing m)
            (todoPattern m) (status m).
Definition setProcessedFiles (v : gset string) (m : TodoManager) :=
  mkManager (fileCache m) v (todos m) (todosByFile m) (isProcessing m)
            (todoPattern m) (status m).
Definition setTodos (v : list Todo) (m : TodoManager) :=
  mkManager (fileCache m) (processedFiles m) v (todosByFile m) (isProcessing m)
            (todoPattern m) (status m).
Definition setTodosByFile (v : gmap string (list Todo)) (m : TodoManager) :=
  mkManager (fileCache m) (processedFiles m) (todos m) v (isProcessing m)
            (todoPattern m) (status m).
Definition setIsProcessing (v : bool) (m : TodoManager) :=
  mkManager (fileCache m) (processedFiles m) (todos m) (todosByFile m) v
            (todoPattern m) (status m).
Definition setTodoPattern (v : re) (m : TodoManager) :=
  mkManager (fileCache m) (processedFiles m) (todos m) (todosByFile m)
            (isProcessing m) v (status m).
Definition setStatus (v : ProcessingStatus) (m : TodoManager) :=
  mkManager (fileCache m) (processedFiles m) (todos m) (todosByFile m)
            (isProcessing m) (todoPattern m) v.

(** [updateStatus(update)]: the fields present in [update] replace those
    of the status. *)
Definition withFilesProcessed (n : nat) (s : ProcessingStatus) :=
  mkStatus (currentFile s) n (totalFiles s) (state s).
Definition withCurrentFile (f : option string) (s : ProcessingStatus) :=
  mkStatus f (filesProcessed s) (totalFiles s) (state s).
Definition withTotalFiles (n : nat) (s : ProcessingStatus) :=
  mkStatus (currentFile s) (filesProcessed s) n (state s).
Definition withState (st : State) (s : ProcessingStatus) :=
  mkStatus (currentFile s) (filesProcessed s) (totalFiles s) st.

Definition updateStatus (u : ProcessingStatus -> ProcessingStatus)
  (m : TodoManager) : TodoManager :=
  setStatus (u (status m)) m.

(** *** Construction, [initialize], [getInstance], [dispose] *)

Definition defaultedPattern (h : Host) : re :=
  match configTodoPattern h with
  | Some p => p
  | None => Extractor.defaultPattern
  end.

(** [initialize()]: every field it assigns; [todosByFile] is not one of
    them. [setupFileWatcher] re-registers the two handlers below. *)
Definition initialize (h : Host) (m : TodoManager) : TodoManager :=
  mkManager ∅ ∅ [] (todosByFile m) false (defaultedPattern h) idleStatus.

(** The field initialisers of the class. *)
Definition fresh : TodoManager :=
  mkManager ∅ ∅ [] ∅ false Eps idleStatus.

(** [new TodoManager()] *)
Definition construct (h : Host) : TodoManager := initialize h fresh.

(** [TodoManager.getInstance()], over the static [instance]: the
    instance returned, which the static field holds afterwards. *)
Definition getInstance (h : Host) (instance : option TodoManager)
  : TodoManager :=
  match instance with
  | None => construct h
  | Some m => initialize h m
  end.

(** [dispose()]: the instance as it is left (the static field becomes
    undefined). *)
Definition dispose (m : TodoManager) : TodoManager :=
  mkManager ∅ ∅ [] ∅ false (todoPattern m) (status m).

(** *** Queries *)

Definition getTotalCount (m : TodoManager) : nat := length (todos m).

Definition isStillProcessing (m : TodoManager) : bool := isProcessing m.

Definition getStatus (m : TodoManager) : ProcessingStatus := status m.

Definition getTodosInFile (m : TodoManager) (filePath : string) : list Todo :=
  match todosByFile m !! filePath with
  | Some l => l
  | None => []
  end.

Definition getTodoCountInFile (m : TodoManager) (filePath : string) : nat :=
  match todosByFile m !! filePath with
  | Some l => length l
  | None => 0
  end.

(** The sum of [getTodoCountInFile] over the files that have an entry in
    the per-file grouping (every other file counts for 0). *)
Definition groupedCount (m : TodoManager) : nat :=
  sum_list (map (getTodoCountInFile m) (elements (dom (todosByFile m)))).

(** [getNextBatch(startIndex)] *)
Definition getNextBatch (m : TodoManager) (startIndex : Z) : list Todo :=
  let stop := Z.min (startIndex + Z.of_nat batchSize)
                    (Z.of_nat (length (todos m))) in
  Js.slice (todos m) startIndex stop.

(** *** The file watcher *)

(** [onDidDelete] *)
Definition onDidDelete (filePath : string) (m : TodoManager) : TodoManager :=
  setTodos
    (List.filter (fun t => negb (String.eqb (file t) filePath)) (todos m))
    (setProcessedFiles (processedFiles m ∖ {[filePath]})
       (setFileCache (delete filePath (fileCache m)) m)).

(** *** Batch processing *)

(** One annotation, as the body of the [while] loop builds it. *)
Definition todoOf (h : Host) (filePath content : string) (m : matchResult)
  : Todo :=
  let position := positionAt h content (index m) in
  let endPosition := positionAt h content (index m + String.length (whole m)) in
  let todoType := Extractor.todoType m in
  let todoText := Extractor.todoText m in
  mkTodo ("[" ++ todoType ++ "] " ++ todoText)
         filePath
         (Vscode.line position)
         (character position)
         (mkRange position endPosition)
         (gitAuthor h filePath (Vscode.line position)).

(** [fileTodos] after the loop over the matches of one document. *)
Definition scanText (h : Host) (pattern : re) (filePath content : string)
  : list Todo :=
  map (todoOf h filePath content)
      (List.filter Extractor.emitted (Extractor.matches pattern content)).

(** Which way one iteration of the [for] loop of [processBatch] went. *)
Inductive Outcome : Type :=
| AlreadyProcessed            (* processedFiles.has: continue *)
| StatFailed                  (* fs.stat threw: caught *)
| CacheSkip                   (* unchanged since cached: continue *)
| OpenFailed                  (* openTextDocument threw: caught *)
| Scanned (found : list Todo) (* read and extracted *).

Definition foundBy (o : Outcome) : list Todo :=
  match o with Scanned l => l | _ => [] end.

(** [cached && cached.lastModified === stats.mtime] *)
Definition shouldSkip (m : TodoManager) (filePath : string) (mtime : Z)
  : bool :=
  match fileCache m !! filePath with
  | Some cached => (lastModified cached =? mtime)%Z
  | None => false
  end.

(** The body of the [for] loop of [processBatch] for one file. *)
Definition processFile (h : Host) (filePath : string) (m : TodoManager)
  : TodoManager * Outcome :=
  if decide (filePath ∈ processedFiles m) then
    (updateStatus
       (fun s => withFilesProcessed (filesProcessed s + 1) s) m,
     AlreadyProcessed)
  else
    let m1 :=
      updateStatus
        (fun s => withFilesProcessed (filesProcessed s + 1)
                    (withCurrentFile (Some (asRelativePath h filePath)) s)) m in
    match statMtime h filePath with
    | None => (m1, StatFailed)
    | Some mtime =>
        if shouldSkip m1 filePath mtime then
          (setProcessedFiles ({[filePath]} ∪ processedFiles m1) m1, CacheSkip)
        else
          match openTextDocument h filePath with
          | None => (m1, OpenFailed)
          | Some content =>
              let fileTodos := scanText h (todoPattern m1) filePath content in
              let m2 := setTodos (todos m1 ++ fileTodos)%list m1 in
              let m3 :=
                match fileTodos with
                | [] => m2
                | _ => setTodosByFile
                         (<[filePath := fileTodos]> (todosByFile m2)) m2
                end in
              let m4 :=
                setFileCache
                  (<[filePath := mkFileCache (now h) mtime]> (fileCache m3))
                  m3 in
              (setProcessedFiles ({[filePath]} ∪ processedFiles m4) m4,
               Scanned fileTodos)
          end
    end.

(** What the loop body extracts from a file it has to read, and what a
    file contributes to a scan that meets it with the cache and the
    pattern of [m]: nothing when its [stat] fails, when the cache has
    its modification time, or when it cannot be opened. *)
Definition readAndScan (h : Host) (pattern : re) (filePath : string)
  : list Todo :=
  match openTextDocument h filePath with
  | Some content => scanText h pattern filePath content
  | None => []
  end.

Definition fileResult (h : Host) (m : TodoManager) (filePath : string)
  : list Todo :=
  match statMtime h filePath with
  | None => []
  | Some mtime =>
      if shouldSkip m filePath mtime then []
      else readAndScan h (todoPattern m) filePath
  end.

(** The contribution of a file when no cache entry stands in the way. *)
Definition freshResult (h : Host) (pattern : re) (filePath : string)
  : list Todo :=
  match statMtime h filePath with
  | None => []
  | Some _ => readAndScan h pattern filePath
  end.

(** [processBatch(files)]: the new annotations and the manager after
    the loop. *)
Fixpoint processBatch (h : Host) (files : list string) (m : TodoManager)
  : list Todo * TodoManager :=
  match files with
  | [] => ([], m)
  | f :: files' =>
      let (m1, o) := processFile h f m in
      let (newTodos, m2) := processBatch h files' m1 in
      ((foundBy o ++ newTodos)%list, m2)
  end.

(** [processRemainingFiles(files)]: the loop over the batches, with the
    index [i] of the source, then the final status. [fuel] bounds the
    number of batches. *)
Fixpoint remainingLoop (fuel : nat) (h : Host) (files : list string)
  (i : nat) (m : TodoManager) : TodoManager :=
  match fuel with
  | 0 => m
  | S fuel' =>
      if i <? length files then
        let batch :=
          Js.slice files (Z.of_nat i) (Z.of_nat (i + batchSize)) in
        remainingLoop fuel' h files (i + batchSize)
                      (snd (processBatch h batch m))
      else m
  end.

Definition processRemainingFiles (h : Host) (files : list string)
  (m : TodoManager) : TodoManager :=
  let m1 := remainingLoop (length files) h files 0 m in
  updateStatus (fun s => withCurrentFile None (withState complete s))
               (setIsProcessing false m1).

(** *** Starting a scan *)

(** [Array.from(new Set(...))]: the first occurrence of each file, in
    order. *)
Fixpoint dedupFrom (seen : gset string) (l : list string) : list string :=
  match l with
  | [] => []
  | x :: l' =>
      if decide (x ∈ seen) then dedupFrom seen l'
      else x :: dedupFrom ({[x]} ∪ seen) l'
  end.

Definition dedup (l : list string) : list string := dedupFrom ∅ l.

(** What [initializeStream] leaves behind: the value it resolves to, the
    manager, the files handed to the background call of
    [processRemainingFiles] when there is one, and the messages shown.
    The background call is not awaited; all of it, the status update it
    makes before it first suspends included, is accounted to
    [processRemainingFiles]. *)
Record Started : Type := mkStarted {
  initialBatch : list Todo;
  manager : TodoManager;
  background : option (list string);
  notices : list Notice
}.

(** The statements of [initializeStream] before the first suspension. *)
Definition beginScan (m : TodoManager) : TodoManager :=
  updateStatus (fun s => withFilesProcessed 0 (withState searching s))
    (setIsProcessing true (setProcessedFiles ∅ (setTodos [] m))).

(** The statements after the enumeration returned [found]. *)
Definition scanFiles (h : Host) (found : list string) (m : TodoManager)
  : Started :=
  let allFiles := dedup found in
  let m1 := updateStatus (withTotalFiles (length allFiles)) m in
  let (initial, m2) :=
    processBatch h (Js.slice allFiles 0 (Z.of_nat batchSize)) m1 in
  if batchSize <? length allFiles then
    mkStarted initial m2
              (Some (Js.slice allFiles (Z.of_nat batchSize)
                              (Z.of_nat (length allFiles))))
              []
  else
    mkStarted initial (updateStatus (withState complete) m2) None [].

Definition initializeStream (h : Host) (m : TodoManager) : Started :=
  if negb (workspaceFolders h) then
    mkStarted [] m None
      [ShowInformationMessage
         "TODO Tok: Please open a workspace or folder first."]
  else
    let m1 := beginScan m in
    match findFiles h with
    | Some found => scanFiles h found m1
    | None => mkStarted [] (updateStatus (withState complete) m1) None []
    end.

(** The background call, when it runs undisturbed after
    [initializeStream] returned. *)
Definition runBackground (h : Host) (s : Started) : TodoManager :=
  match background s with
  | Some files => processRemainingFiles h files (manager s)
  | None => manager s
  end.

(** The statements of [refreshTodos] before [initializeStream]. *)
Definition clearForRefresh (m : TodoManager) : TodoManager :=
  setFileCache ∅ (setProcessedFiles ∅ (setTodos [] m)).

Definition refreshTodos (h : Host) (m : TodoManager) : Started :=
  initializeStream h (clearForRefresh m).

(** [onDidChange] *)
Definition onDidChange (h : Host) (filePath : string) (m : TodoManager)
  : Started :=
  let m1 :=
    setProcessedFiles (processedFiles m ∖ {[filePath]})
      (setFileCache (delete filePath (fileCache m)) m) in
  if existsb (fun t => String.eqb (file t) filePath) (todos m1) then
    refreshTodos h m1
  else mkStarted [] m1 None [].

End Manager.

(** ** [src/services/todo-finder.ts] *)

Module Finder.
Import Vscode Manager.

(** [findTodos()]: the one-shot search, with the same regular expression
    and loop body as [processBatch]; [findFiles] stands for its single
    enumeration. *)
Definition findTodos (h : Host) : list Todo * list Notice :=
  if negb (workspaceFolders h) then
    ([], [ShowInformationMessage
            "TODO Tok: Please open a workspace or folder first."])
  else
    match findFiles h with
    | None =>
        ([], [ShowErrorMessage
                "TODO Tok: Error searching workspace files. Please try again."])
    | Some [] =>
        ([], [ShowInformationMessage "TODO Tok: No files found in workspace."])
    | Some files =>
        let found :=
          flat_map
            (fun f =>
               match openTextDocument h f with
               | Some content => scanText h (defaultedPattern h) f content
               | None => []
               end) files in
        (found,
         match found with
         | [] => [ShowInformationMessage
                    "TODO Tok: No TODOs found in workspace."]
         | _ => []
         end)
    end.

Definition invalidItem : Notice :=
  ShowErrorMessage "TODO Tok: Invalid TODO item. Cannot remove.".
Definition removalError : Notice :=
  ShowErrorMessage "TODO Tok: Error removing TODO. Please try again.".
Definition removalRefused : Notice :=
  ShowWarningMessage
    "TODO Tok: Could not remove TODO. The file might be read-only.".
Definition removalDone : Notice :=
  ShowInformationMessage "TODO Tok: Successfully removed TODO.".

(** [removeTodo(todo)]: the boolean it resolves to and the message it
    shows. An absent item or an empty [file] is falsy; a [range] is an
    object, always truthy. *)
Definition removeTodo (h : Host) (todo : option Todo) : bool * list Notice :=
  match todo with
  | None => (false, [invalidItem])
  | Some t =>
      if negb (Js.truthy (file t)) then (false, [invalidItem])
      else
        match openTextDocument h (file t) with
        | None => (false, [removalError])
        | Some _ =>
            match applyEdit h (file t) (range t) with
            | None => (false, [removalError])
            | Some true => (true, [removalDone])
            | Some false => (false, [removalRefused])
            end
        end
  end.

End Finder.

(** ** The webview panel: what it keeps of the manager's results *)

Module Panel.
Import Vscode Manager.

Record TodoPanelProvider : Type := mkPanel {
  _todos : list Todo;
  _currentTodoIndex : nat;
  _loading : bool;
  _loadedAllTodos : bool;
  _todoManager : TodoManager
}.

(** A handler's effect: the panel, the background scan it started, if
    any, and the messages shown. *)
Record Handled : Type := mkHandled {
  panel : TodoPanelProvider;
  pending : option (list string);
  shown : list Notice
}.

(** [_loadInitialTodos()] *)
Definition _loadInitialTodos (h : Host) (p : TodoPanelProvider) : Handled :=
  let s := initializeStream h (_todoManager p) in
  match initialBatch s with
  | [] =>
      mkHandled
        (mkPanel [] (_currentTodoIndex p) false (_loadedAllTodos p) (manager s))
        (background s) (notices s)
  | loaded =>
      mkHandled
        (mkPanel loaded 0 false (length loaded <? 20) (manager s))
        (background s) (notices s)
  end.

(** [_loadMoreTodos()] *)
Definition _loadMoreTodos (p : TodoPanelProvider) : TodoPanelProvider :=
  if _loadedAllTodos p || _loading p then p
  else
    match getNextBatch (_todoManager p) (Z.of_nat (length (_todos p))) with
    | [] => mkPanel (_todos p) (_currentTodoIndex p) (_loading p) true
                    (_todoManager p)
    | nextBatch =>
        mkPanel (_todos p ++ nextBatch)%list (_currentTodoIndex p)
                (_loading p) (_loadedAllTodos p) (_todoManager p)
    end.

(** The [complete] case of [_handleMessage]. [h] is the host when the
    annotation is removed, [h'] the host when the rescan runs. *)
Definition handleComplete (h h' : Host) (p : TodoPanelProvider) : Handled :=
  match nth_error (_todos p) (_currentTodoIndex p) with
  | Some todo =>
      let (success, msgs) := Finder.removeTodo h (Some todo) in
      if success then
        let r := _loadInitialTodos h' p in
        mkHandled (panel r) (pending r) (msgs ++ shown r)%list
      else mkHandled p None msgs
  | None => mkHandled p None []
  end.

End Panel.

(** ** Concrete workspaces, for the scenarios of the specification *)

Module Scenario.
Import Vscode Manager.

(** [document.positionAt] for a document with line-feed line ends; an
    offset past the end is the position of the end. *)
Fixpoint positionFrom (l c : nat) (content : string) (offset : nat)
  : Position :=
  match offset, content with
  | S o, String ch s' =>
      if Ascii.eqb ch (ascii_of_nat 10) then positionFrom (S l) 0 s' o
      else positionFrom l (S c) s' o
  | _, _ => mkPosition l c
  end.

Definition lookupFile {A} (files : list (string * A)) (f : string)
  : option A :=
  match find (fun p => String.eqb (fst p) f) files with
  | Some p => Some (snd p)
  | None => None
  end.

(** A workspace given by its files, each with a modification time and a
    text, enumerated in the order of the list; git blame is disabled and
    edits are applied unless the file is in [readOnly]. *)
Definition workspace (files : list (string * (Z * string)))
  (readOnly : list string) : Host :=
  mkHost true
         (Some (map fst files))
         (fun f => option_map fst (lookupFile files f))
         (fun f => option_map snd (lookupFile files f))
         (positionFrom 0 0)
         (fun f => f)
         (fun _ _ => None)
         0%Z
         None
         (fun f _ => Some (negb (existsb (String.eqb f) readOnly))).

Definition digits (n : nat) : string :=
  String (ascii_of_nat (48 + n / 10))
         (String (ascii_of_nat (48 + n mod 10)) EmptyString).

(** [n] files [/w/f00.ts], [/w/f01.ts], ... each with one annotation. *)
Definition numbered (n : nat) : list (string * (Z * string)) :=
  map (fun i => ("/w/f" ++ digits i ++ ".ts",
                 (100%Z, "// TODO: task " ++ digits i)))
      (seq 0 n).

Definition threeTodos : string :=
  "// TODO: one" ++ String (ascii_of_nat 10)
  ("# FIXME two" ++ String (ascii_of_nat 10) "; hack: three").

(** One file with three annotations, and one with none. *)
Definition small : Host :=
  workspace [("/w/a.ts", (100%Z, threeTodos));
             ("/w/b.ts", (100%Z, "nothing here"))] [].

(** The same workspace after [/w/a.ts] was rewritten without any
    annotation. *)
Definition smallEdited : Host :=
  workspace [("/w/a.ts", (200%Z, "all done"));
             ("/w/b.ts", (100%Z, "nothing here"))] [].

(** The same workspace with [/w/a.ts] read-only. *)
Definition smallReadOnly : Host :=
  workspace [("/w/a.ts", (100%Z, threeTodos));
             ("/w/b.ts", (100%Z, "nothing here"))] ["/w/a.ts"].

(** The manager once the first scan of [small] is over. *)
Definition scanned : TodoManager :=
  runBackground small (initializeStream small (getInstance small None)).

(** Scenarios 1 and 2: one file for each of the two comments. *)
Definition twoComments : Host :=
  workspace [("/w/one.ts", (1%Z, "// TODO: fix this"));
             ("/w/two.py", (1%Z, "# FIXME add validation"))] [].

(** A comment whose marker is followed by a colon and one blank. *)
Definition blankMessage : Host :=
  workspace [("/w/a.ts", (1%Z, "// TODO: "))] [].

(** Scenario 3: forty-five files. *)
Definition large : Host := workspace (numbered 45) [].

(** Twenty-one files: one is left to the background call. While that
    call is still in flight a refresh starts, and runs up to the
    enumeration of the files; then the old call proceeds. *)
Definition twentyOne : Host := workspace (numbered 21) [].

Definition firstScan : Started :=
  initializeStream twentyOne (getInstance twentyOne None).

Definition refreshBegun : TodoManager :=
  beginScan (clearForRefresh (manager firstScan)).

Definition staleDone : TodoManager :=
  processRemainingFiles twentyOne ["/w/f20.ts"] refreshBegun.

(** A panel showing the first annotation of that scan. *)
Definition browsing : Panel.TodoPanelProvider :=
  Panel.mkPanel (todos scanned) 0 false true scanned.

End Scenario.

(** ** What one file adds to a batch *)

Module Results.
Import Vscode Manager.

(** What the loop body of [processBatch] gets from one file when the
    store is [m]: nothing when the scan has marked the file processed,
    else what [stat], the cache and the extraction give. *)
Definition contribution (h : Host) (m : TodoManager) (filePath : string)
  : list Todo :=
  if decide (filePath ∈ processedFiles m) then [] else fileResult h m filePath.

(** An annotation without its author. *)
Definition located (t : Todo) : string * string * nat * nat * Range :=
  (text t, file t, Manager.line t, column t, range t).

End Results.

(** ** The webview panel: navigation *)

Module Navigation.
Import Vscode Manager Panel.

Definition withIndex (i : nat) (p : TodoPanelProvider) : TodoPanelProvider :=
  mkPanel (_todos p) i (_loading p) (_loadedAllTodos p) (_todoManager p).

(** The manager is an object the panel shares with the scans: the panel
    as it is once the manager has become [m]. *)
Definition withManager (m : TodoManager) (p : TodoPanelProvider)
  : TodoPanelProvider :=
  mkPanel (_todos p) (_currentTodoIndex p) (_loading p) (_loadedAllTodos p) m.

(** The [next] case of [_handleMessage]. *)
Definition handleNext (p : TodoPanelProvider) : TodoPanelProvider :=
  if (Z.of_nat (_currentTodoIndex p)
      <? Z.of_nat (length (_todos p)) - 1)%Z then
    let p1 := withIndex (_currentTodoIndex p + 1) p in
    if (Z.of_nat (length (_todos p1)) - 5
        <=? Z.of_nat (_currentTodoIndex p1))%Z
    then _loadMoreTodos p1
    else p1
  else p.

(** The [previous] case. *)
Definition handlePrevious (p : TodoPanelProvider) : TodoPanelProvider :=
  if 0 <? _currentTodoIndex p then withIndex (_currentTodoIndex p - 1) p
  else p.

(** [Array.prototype.findIndex], [None] for -1. *)
Fixpoint findIndex {A} (test : A -> bool) (l : list A) : option nat :=
  match l with
  | [] => None
  | x :: l' => if test x then Some 0 else option_map S (findIndex test l')
  end.

Definition sameLocation (a b : Todo) : bool :=
  String.eqb (file b) (file a) && (Manager.line b =? Manager.line a)
  && (column b =? column a).

Definition requestFailed : Notice :=
  ShowErrorMessage "TODO Tok: An error occurred while processing your request.".

(** The [selectTodoInFile] case, for [message.index = index]. Reading
    [file] of an absent current annotation throws, which the handler
    catches and reports. *)
Definition selectTodoInFile (index : nat) (p : TodoPanelProvider)
  : TodoPanelProvider * list Notice :=
  match nth_error (_todos p) (_currentTodoIndex p) with
  | None => (p, [requestFailed])
  | Some currentTodo =>
      let todosInFile := getTodosInFile (_todoManager p) (file currentTodo) in
      match nth_error todosInFile index with
      | None => (p, [])
      | Some selectedTodo =>
          match findIndex (sameLocation selectedTodo) (_todos p) with
          | Some mainIndex => (withIndex mainIndex p, [])
          | None => (p, [])
          end
      end
  end.

End Navigation.

(** ** What a pattern can read *)

Module Language.
Import Regex.

(** The words a pattern can read, whatever follows them (the look at the
    next character that [$] takes is left out). *)
Fixpoint accepts (r : re) (w : list ascii) : Prop :=
  match r with
  | Eps | Eol => w = []
  | Chr a => exists x, w = [x] /\ Js.upper x = Js.upper a
  | Dot => exists x, w = [x] /\ Js.isLineTerminator x = false
  | Space => exists x, w = [x] /\ Js.isSpace x = true
  | OneOf cs => exists x, w = [x] /\ exists y, In y cs /\ Js.upper x = Js.upper y
  | Seq a b => exists w1 w2, w = (w1 ++ w2)%list /\ accepts a w1 /\ accepts b w2
  | Alt a b => accepts a w \/ accepts b w
  | Opt a => w = [] \/ accepts a w
  | Star a => exists ws, w = concat ws /\ Forall (accepts a) ws
  | PlusLazy a =>
      exists w1 ws, w = (w1 ++ concat ws)%list /\ accepts a w1
                    /\ Forall (accepts a) ws
  | Grp _ a => accepts a w
  end.

(** The markers of the default pattern. *)
Definition markers : list string :=
  ["TODO"; "TO-DO"; "TO_DO"; "FIXME"; "FIX-ME"; "FIX_ME"; "XXX"; "HACK";
   "BUG"; "OPTIMIZE"; "REVIEW"].

End Language.

(** ** [src/extension.ts] *)

Module Extension.
Import Regex.

(** [activate] writes the pattern [TODO:?] to the user settings, where
    the manager and [findTodos] read [todoPattern] from (unless the
    workspace settings override it). *)
Definition activatedPattern : re := Seq (lit "TODO") (Opt (Chr ":")).

End Extension.

(** ** Status listeners ([onStatusChange], [updateStatus]) *)

Module Listeners.
Import Manager.

(** The listeners are functions, told apart by identity; here by a
    number. [statusListeners] is the list in registration order. *)
Definition Listener : Type := nat.

(** [onStatusChange(listener)]: [push]. *)
Definition onStatusChange (listener : Listener) (statusListeners : list Listener)
  : list Listener :=
  (statusListeners ++ [listener])%list.

(** [indexOf], [None] for -1. *)
Fixpoint indexOf (listener : Listener) (l : list Listener) : option nat :=
  match l with
  | [] => None
  | x :: l' => if x =? listener then Some 0
               else option_map S (indexOf listener l')
  end.

(** [splice(index, 1)] *)
Fixpoint splice1 {A} (index : nat) (l : list A) : list A :=
  match index, l with
  | _, [] => []
  | 0, _ :: l' => l'
  | S i, x :: l' => x :: splice1 i l'
  end.

(** [dispose()] of the handle [onStatusChange] returned. *)
Definition disposeListener (listener : Listener)
  (statusListeners : list Listener) : list Listener :=
  match indexOf listener statusListeners with
  | Some index => splice1 index statusListeners
  | None => statusListeners
  end.

(** [updateStatus]: the calls made, in order, each with the new
    status. *)
Definition notified (statusListeners : list Listener)
  (s : ProcessingStatus) : list (Listener * ProcessingStatus) :=
  map (fun listener => (listener, s)) statusListeners.

End Listeners.

(** ** [getGitAuthor] *)

Module GitBlame.

Definition authorPrefix : list ascii := list_ascii_of_string "author ".

(** The input after [p], when it starts with [p] (case matters). *)
Fixpoint stripPrefix (p s : list ascii) : option (list ascii) :=
  match p, s with
  | [], _ => Some s
  | a :: p', x :: s' => if Ascii.eqb a x then stripPrefix p' s' else None
  | _ :: _, [] => None
  end.

(** The longest run of characters that are not line terminators. *)
Fixpoint lineHead (s : list ascii) : list ascii :=
  match s with
  | x :: s' => if Js.isLineTerminator x then [] else x :: lineHead s'
  | [] => []
  end.

(** The expression [^author (.+)$] under flag [m], tried at the current
    index: only at the start of a line, where the greedy group takes
    the rest of the line, which must not be empty. *)
Definition authorHere (atLineStart : bool) (s : list ascii)
  : option (list ascii) :=
  if atLineStart then
    match stripPrefix authorPrefix s with
    | Some r => match lineHead r with [] => None | name => Some name end
    | None => None
    end
  else None.

(** [stdout.match(...)]: the first index where it matches. *)
Fixpoint authorFrom (atLineStart : bool) (s : list ascii)
  : option (list ascii) :=
  match authorHere atLineStart s with
  | Some name => Some name
  | None =>
      match s with
      | [] => None
      | x :: s' => authorFrom (Js.isLineTerminator x) s'
      end
  end.

(** [authorMatch ? authorMatch[1] : undefined] *)
Definition parseAuthor (stdout : string) : option string :=
  option_map string_of_list_ascii
             (authorFrom true (list_ascii_of_string stdout)).

(** [getGitAuthor(filePath, lineNumber)] of the manager: [enabled] is
    the [enableGitBlame] setting, [folders] the paths of the workspace
    folders, [blame cwd file n] the output of [git blame -L n,n
    --porcelain file] run in [cwd], absent when the command fails. *)
Definition getGitAuthor (enabled : bool) (folders : list string)
  (blame : string -> string -> nat -> option string)
  (filePath : string) (lineNumber : nat) : option string :=
  if negb enabled then None
  else
    match find (fun folder => String.prefix folder filePath) folders with
    | None => None
    | Some folder =>
        match blame folder filePath (lineNumber + 1) with
        | Some stdout => parseAuthor stdout
        | None => None
        end
    end.

(** A porcelain output of git blame. *)
Definition porcelain : string :=
  let nl := String (ascii_of_nat 10) EmptyString in
  "49790775624c422f67057f7bb936f35df920e391 3 3 1" ++ nl ++
  "author Ada Lovelace" ++ nl ++
  "author-mail <ada@example.org>" ++ nl ++
  "author-time 1700000000" ++ nl ++
  "committer Charles" ++ nl ++
  "summary note author x" ++ nl ++
  String (ascii_of_nat 9) "// TODO: one" ++ nl.

End GitBlame.

(** ** Further workspaces *)

Module Workspaces.
Import Vscode Manager Panel.

(** The workspace [small] with a file listed between its two files that
    is gone when the scan reaches it. *)
Definition withMissing : Host :=
  mkHost true (Some ["/w/a.ts"; "/w/gone.ts"; "/w/b.ts"])
         (statMtime Scenario.small) (openTextDocument Scenario.small)
         (positionAt Scenario.small) (asRelativePath Scenario.small)
         (gitAuthor Scenario.small) (now Scenario.small)
         (configTodoPattern Scenario.small) (applyEdit Scenario.small).

(** Twenty-one files of which only the first and the last hold an
    annotation. *)
Definition sparse : Host :=
  Scenario.workspace
    (map (fun i => ("/w/f" ++ Scenario.digits i ++ ".ts",
                    (100%Z,
                     if (i =? 0) || (i =? 20)
                     then "// TODO: task " ++ Scenario.digits i
                     else "nothing here")))
         (seq 0 21)) [].

(** A panel opened on that workspace. *)
Definition sparsePanel : TodoPanelProvider :=
  mkPanel [] 0 false false (getInstance sparse None).

End Workspaces.

(** * Properties *)

(** ** The matcher *)

Section MatcherFacts.
Import Regex.

Lemma reaches_refl c : reaches 0 c c.
Proof. unfold reaches. lia. Qed.

Lemma reaches_trans n1 n2 c c1 c2 :
  reaches n1 c c1 -> reaches n2 c1 c2 -> reaches (n1 + n2) c c2.
Proof. unfold reaches. lia. Qed.

Lemma reaches_weaken n n' c c1 : n' <= n -> reaches n c c1 -> reaches n' c c1.
Proof. unfold reaches. lia. Qed.

Lemma reaches_advance c x xs : rest c = x :: xs -> reaches 1 c (advance c).
Proof. intros E. unfold reaches, advance. simpl. rewrite E. simpl. lia. Qed.

Lemma single_inv p k c c' :
  single p k c = Some c' ->
  exists c1, k c1 = Some c' /\ reaches 1 c c1.
Proof.
  unfold single. destruct (rest c) as [|x xs] eqn:E; [discriminate|].
  destruct (p x); [|discriminate]. intros H. exists (advance c).
  split; [exact H|]. exact (reaches_advance c x xs E).
Qed.

Lemma orElse_inv a b c' :
  orElse a b = Some c' -> a = Some c' \/ b = Some c'.
Proof. destruct a; simpl; auto. Qed.

(** A successful match went through its continuation, at a
    configuration reached by reading. *)
Lemma run_inv r : forall k c c',
  run r k c = Some c' ->
  exists c1, k c1 = Some c' /\ reaches (step (consumes r)) c c1.
Proof.
  induction r as [| a | | | cs | | r1 IH1 r2 IH2 | r1 IH1 r2 IH2 | r1 IH1
                 | r1 IH1 | r1 IH1 | n r1 IH1]; intros k c c' H; simpl in H.
  - exists c. split; [exact H|apply reaches_refl].
  - apply single_inv in H. exact H.
  - apply single_inv in H. exact H.
  - apply single_inv in H. exact H.
  - apply single_inv in H. exact H.
  - exists c. split; [|apply reaches_refl].
    destruct (rest c) as [|x xs]; [exact H|].
    destruct (Js.isLineTerminator x); [exact H|discriminate].
  - apply IH1 in H as (c1 & H & R1). apply IH2 in H as (c2 & H & R2).
    exists c2. split; [exact H|].
    eapply reaches_weaken; [|exact (reaches_trans _ _ _ _ _ R1 R2)].
    simpl. destruct (consumes r1), (consumes r2); simpl; lia.
  - apply orElse_inv in H as [H|H].
    + apply IH1 in H as (c1 & H & R). exists c1. split; [exact H|].
      eapply reaches_weaken; [|exact R].
      simpl. destruct (consumes r1), (consumes r2); simpl; lia.
    + apply IH2 in H as (c1 & H & R). exists c1. split; [exact H|].
      eapply reaches_weaken; [|exact R].
      simpl. destruct (consumes r1), (consumes r2); simpl; lia.
  - apply orElse_inv in H as [H|H].
    + apply IH1 in H as (c1 & H & R). exists c1.
      destruct (pos c <? pos c1); [|discriminate].
      split; [exact H|]. eapply reaches_weaken; [|exact R]. simpl. lia.
    + exists c. split; [exact H|apply reaches_refl].
  - remember (length (rest c)) as fuel eqn:Ef. clear Ef. revert c H.
    induction fuel as [|fuel IHf]; intros c H; simpl in H.
    + exists c. split; [exact H|apply reaches_refl].
    + apply orElse_inv in H as [H|H].
      * apply IH1 in H as (c1 & H & R).
        destruct (pos c <? pos c1); [|discriminate].
        apply IHf in H as (c2 & H & R2). exists c2. split; [exact H|].
        eapply reaches_weaken; [|exact (reaches_trans _ _ _ _ _ R R2)].
        simpl. lia.
      * exists c. split; [exact H|apply reaches_refl].
  - apply IH1 in H as (c0 & H & R0).
    assert (Hloop : exists c1, k c1 = Some c' /\ reaches 0 c0 c1).
    { clear R0. revert c0 H. generalize (length (rest c)).
      intros fuel. induction fuel as [|fuel IHf]; intros c0 H; simpl in H.
      - exists c0. split; [exact H|apply reaches_refl].
      - apply orElse_inv in H as [H|H].
        + exists c0. split; [exact H|apply reaches_refl].
        + apply IH1 in H as (c1 & H & R).
          destruct (pos c0 <? pos c1); [|discriminate].
          apply IHf in H as (c2 & H & R2). exists c2. split; [exact H|].
          eapply reaches_weaken; [|exact (reaches_trans _ _ _ _ _ R R2)].
          lia. }
    destruct Hloop as (c1 & Hk & R1). exists c1. split; [exact Hk|].
    eapply reaches_weaken; [|exact (reaches_trans _ _ _ _ _ R0 R1)].
    simpl. lia.
  - apply IH1 in H as (c1 & H & R). eexists. split; [exact H|].
    unfold reaches in *. simpl in *. lia.
Qed.

(** A match that cannot get through its continuation fails. *)
Lemma run_none r k c :
  (forall c1, reaches 0 c c1 -> k c1 = None) -> run r k c = None.
Proof.
  intros Hk. destruct (run r k c) as [c'|] eqn:E; [|reflexivity].
  apply run_inv in E as (c1 & E & R).
  rewrite Hk in E; [discriminate|].
  eapply reaches_weaken; [|exact R]. lia.
Qed.

Lemma single_ext p k k' c :
  (forall c1, reaches 0 c c1 -> k c1 = k' c1) -> single p k c = single p k' c.
Proof.
  intros H. unfold single. destruct (rest c) as [|x xs] eqn:E; [reflexivity|].
  destruct (p x); [|reflexivity]. apply H.
  eapply reaches_weaken; [|exact (reaches_advance c x xs E)]. lia.
Qed.

(** The result depends on the continuation only where it can be
    called. *)
Lemma run_ext r : forall k k' c,
  (forall c1, reaches 0 c c1 -> k c1 = k' c1) -> run r k c = run r k' c.
Proof.
  induction r as [| a | | | cs | | r1 IH1 r2 IH2 | r1 IH1 r2 IH2 | r1 IH1
                 | r1 IH1 | r1 IH1 | n r1 IH1]; intros k k' c H; simpl.
  - apply H, reaches_refl.
  - apply single_ext, H.
  - apply single_ext, H.
  - apply single_ext, H.
  - apply single_ext, H.
  - rewrite (H c (reaches_refl c)). reflexivity.
  - apply IH1. intros c1 R1. apply IH2. intros c2 R2. apply H.
    exact (reaches_trans _ _ _ _ _ R1 R2).
  - rewrite (IH1 k k' c H), (IH2 k k' c H). reflexivity.
  - rewrite (H c (reaches_refl c)). f_equal. apply IH1. intros c1 R1.
    rewrite (H c1 R1). reflexivity.
  - remember (length (rest c)) as fuel eqn:Ef. clear Ef. revert c H.
    induction fuel as [|fuel IHf]; intros c H; simpl.
    + apply H, reaches_refl.
    + rewrite (H c (reaches_refl c)). f_equal. apply IH1. intros c1 R1.
      destruct (pos c <? pos c1); [|reflexivity].
      apply IHf. intros c2 R2. apply H.
      exact (reaches_trans _ _ _ _ _ R1 R2).
  - apply IH1. intros c0 R0. generalize (length (rest c)). intros fuel.
    revert c0 R0. induction fuel as [|fuel IHf]; intros c0 R0; simpl.
    + apply H, R0.
    + rewrite (H c0 R0). f_equal. apply IH1. intros c1 R1.
      destruct (pos c0 <? pos c1); [|reflexivity].
      apply IHf. exact (reaches_trans _ _ _ _ _ R0 R1).
  - apply IH1. intros c1 R1. apply H. unfold reaches in *. simpl. lia.
Qed.

(** More fuel than characters left changes nothing. *)
Lemma greedyLoop_fuel r k : forall fuel c,
  length (rest c) <= fuel ->
  greedyLoop (run r) k (S fuel) c = greedyLoop (run r) k fuel c.
Proof.
  induction fuel as [|fuel IH]; intros c Hc.
  - simpl. rewrite run_none; [reflexivity|].
    intros c1 R. unfold reaches in R.
    destruct (Nat.ltb_spec (pos c) (pos c1)); [lia|reflexivity].
  - change (greedyLoop (run r) k (S (S fuel)) c)
      with (orElse (run r (fun c' => if pos c <? pos c'
                                     then greedyLoop (run r) k (S fuel) c'
                                     else None) c) (k c)).
    change (greedyLoop (run r) k (S fuel) c)
      with (orElse (run r (fun c' => if pos c <? pos c'
                                     then greedyLoop (run r) k fuel c'
                                     else None) c) (k c)).
    f_equal. apply run_ext. intros c1 R.
    destruct (Nat.ltb_spec (pos c) (pos c1)); [|reflexivity].
    apply IH. unfold reaches in R. lia.
Qed.

Lemma lazyLoop_fuel r k : forall fuel c,
  length (rest c) <= fuel ->
  lazyLoop (run r) k (S fuel) c = lazyLoop (run r) k fuel c.
Proof.
  induction fuel as [|fuel IH]; intros c Hc.
  - simpl. rewrite run_none; [destruct (k c); reflexivity|].
    intros c1 R. unfold reaches in R.
    destruct (Nat.ltb_spec (pos c) (pos c1)); [lia|reflexivity].
  - change (lazyLoop (run r) k (S (S fuel)) c)
      with (orElse (k c)
              (run r (fun c' => if pos c <? pos c'
                                then lazyLoop (run r) k (S fuel) c'
                                else None) c)).
    change (lazyLoop (run r) k (S fuel) c)
      with (orElse (k c)
              (run r (fun c' => if pos c <? pos c'
                                then lazyLoop (run r) k fuel c'
                                else None) c)).
    f_equal. apply run_ext. intros c1 R.
    destruct (Nat.ltb_spec (pos c) (pos c1)); [|reflexivity].
    apply IH. unfold reaches in R. lia.
Qed.

Lemma greedyLoop_enough r k n : forall c,
  length (rest c) <= n ->
  greedyLoop (run r) k n c = greedyLoop (run r) k (length (rest c)) c.
Proof.
  induction n as [|n IH]; intros c Hc.
  - replace (length (rest c)) with 0 by lia. reflexivity.
  - destruct (Nat.eq_dec (length (rest c)) (S n)) as [->|Hne];
      [reflexivity|].
    rewrite greedyLoop_fuel by lia. apply IH. lia.
Qed.

Lemma lazyLoop_enough r k n : forall c,
  length (rest c) <= n ->
  lazyLoop (run r) k n c = lazyLoop (run r) k (length (rest c)) c.
Proof.
  induction n as [|n IH]; intros c Hc.
  - replace (length (rest c)) with 0 by lia. reflexivity.
  - destruct (Nat.eq_dec (length (rest c)) (S n)) as [->|Hne];
      [reflexivity|].
    rewrite lazyLoop_fuel by lia. apply IH. lia.
Qed.

(** The greedy star obeys the recursion of the ECMAScript repeat
    matcher: one more iteration that reads something, then the star
    again; failing that, the continuation. *)
Lemma run_Star r k c :
  run (Star r) k c
  = orElse (run r (fun c' => if pos c <? pos c' then run (Star r) k c'
                             else None) c)
           (k c).
Proof.
  simpl. rewrite <- (greedyLoop_enough r k (S (length (rest c)))) by lia.
  simpl. f_equal. apply run_ext. intros c1 R.
  destruct (pos c <? pos c1); [|reflexivity].
  apply greedyLoop_enough. unfold reaches in R. lia.
Qed.

(** The lazy plus: one iteration, then the continuation and, failing
    that, further iterations that read something. *)
Lemma run_PlusLazy r k c :
  run (PlusLazy r) k c
  = run r (fun c0 =>
             orElse (k c0)
                    (run r (fun c' =>
                              if pos c0 <? pos c'
                              then lazyLoop (run r) k (length (rest c')) c'
                              else None) c0)) c.
Proof.
  simpl. apply run_ext. intros c0 R0.
  rewrite <- (lazyLoop_fuel r k (length (rest c))) by (unfold reaches in R0; lia).
  simpl. f_equal. apply run_ext. intros c1 R1.
  destruct (pos c0 <? pos c1); [|reflexivity].
  apply lazyLoop_enough. unfold reaches in *. lia.
Qed.

Lemma length_string_of_list_ascii l :
  String.length (string_of_list_ascii l) = length l.
Proof.
  induction l as [|a l IH]; simpl; [reflexivity|]. rewrite IH. reflexivity.
Qed.

Lemma matchAt_inv r i input m :
  matchAt r i input = Some m ->
  index m = i
  /\ i + step (consumes r) <= lastIndexOf m
  /\ lastIndexOf m <= i + length input.
Proof.
  unfold matchAt. destruct (run r Some (Conf i input [])) as [c|] eqn:E;
    [|discriminate].
  intros H. injection H as <-.
  apply run_inv in E as (c1 & Hc & R). injection Hc as ->.
  unfold reaches in R. simpl in R.
  unfold lastIndexOf. simpl.
  rewrite length_string_of_list_ascii, length_firstn. lia.
Qed.

Lemma execFrom_inv r : forall input i m,
  execFrom r i input = Some m ->
  i <= index m
  /\ index m + step (consumes r) <= lastIndexOf m
  /\ lastIndexOf m <= i + length input.
Proof.
  induction input as [|x input IH]; intros i m H; simpl in H.
  - destruct (matchAt r i []) eqn:E; [|discriminate].
    injection H as ->. apply matchAt_inv in E. lia.
  - destruct (matchAt r i (x :: input)) eqn:E.
    + injection H as ->. apply matchAt_inv in E. lia.
    + apply IH in H. simpl. lia.
Qed.

(** A pattern that reads at least one character per match is found at
    most once per character: the loop over [exec] ends by itself, and
    any bound above the length of the text gives the same matches. *)
Lemma execLoop_fuel r content :
  consumes r = true ->
  forall fuel1 fuel2 i,
    length content - i < fuel1 -> length content - i < fuel2 ->
    execLoop fuel1 r content i = execLoop fuel2 r content i.
Proof.
  intros Hr. induction fuel1 as [|fuel1 IH]; intros fuel2 i H1 H2; [lia|].
  destruct fuel2 as [|fuel2]; [lia|]. simpl.
  destruct (execFrom r i (skipn i content)) as [m|] eqn:E; [|reflexivity].
  f_equal. apply execFrom_inv in E. rewrite Hr, length_skipn in E.
  simpl in E. apply IH; lia.
Qed.

Lemma matches_fuel pattern content n :
  execLoop (S (length (list_ascii_of_string content)) + n)
           (Extractor.todoRegex pattern) (list_ascii_of_string content) 0
  = Extractor.matches pattern content.
Proof.
  unfold Extractor.matches. apply execLoop_fuel; [reflexivity|lia|lia].
Qed.

End MatcherFacts.

(** ** The extractor *)

Section ExtractorFacts.
Import Regex Extractor Vscode Manager.

Lemma text_todoOf h f content m :
  text (todoOf h f content m) = "[" ++ todoType m ++ "] " ++ todoText m.
Proof. reflexivity. Qed.

Lemma file_todoOf h f content m : file (todoOf h f content m) = f.
Proof. reflexivity. Qed.

Lemma file_scanText h p f content t :
  In t (scanText h p f content) -> file t = f.
Proof.
  unfold scanText. rewrite in_map_iff. intros (m & <- & _). reflexivity.
Qed.

(** The annotations of a text are its candidates, rendered. *)
Lemma scanText_extract h p f content :
  map text (scanText h p f content)
  = map (fun c => "[" ++ kind c ++ "] " ++ message c) (extract p content).
Proof.
  unfold scanText, extract. rewrite !map_map. reflexivity.
Qed.

(** C6: the text [// TODO: fix this] yields exactly one annotation, of
    kind TODO with message [fix this], and [# FIXME add validation]
    exactly one, of kind FIXME with message [add validation]; in both
    cases the loop over [exec] ends by itself after that match, and the
    annotation stored carries the two parts in its [text], in a scan by
    the manager and in the one-shot search alike. *)
Theorem extract_scenarios :
  extract defaultPattern "// TODO: fix this"
    = [Candidate 0 17 "TODO" "fix this"]
  /\ extract defaultPattern "# FIXME add validation"
    = [Candidate 0 22 "FIXME" "add validation"]
  /\ (forall n,
        length (execLoop (2 + n) (todoRegex defaultPattern)
                  (list_ascii_of_string "// TODO: fix this") 0) = 1
        /\ length (execLoop (2 + n) (todoRegex defaultPattern)
                  (list_ascii_of_string "# FIXME add validation") 0) = 1)
  /\ (forall h f,
        map text (scanText h defaultPattern f "// TODO: fix this")
          = ["[TODO] fix this"]
        /\ map text (scanText h defaultPattern f "# FIXME add validation")
          = ["[FIXME] add validation"])
  /\ map text (initialBatch (initializeStream Scenario.twoComments
                               (getInstance Scenario.twoComments None)))
     = ["[TODO] fix this"; "[FIXME] add validation"]
  /\ map text (fst (Finder.findTodos Scenario.twoComments))
     = ["[TODO] fix this"; "[FIXME] add validation"].
Proof.
  split; [vm_compute; reflexivity|].
  split; [vm_compute; reflexivity|].
  split; [intros n; split; vm_compute; reflexivity|].
  split; [intros h f; rewrite !scanText_extract; split; vm_compute;
          reflexivity|].
  split; vm_compute; reflexivity.
Qed.

End ExtractorFacts.

Section GuardBeforeTrim.
Import Regex Extractor Vscode Manager.

(** The guard of the loop looks at the raw captures. *)
Lemma emitted_raw m :
  emitted m = true <->
  capture m 1 <> EmptyString /\ capture m 2 <> EmptyString.
Proof.
  unfold emitted. rewrite andb_true_iff.
  destruct (capture m 1), (capture m 2); simpl; intuition congruence.
Qed.

(** C7, evaluated where it fails: in [// TODO: ] (a blank after the
    colon) the message capture is that blank; the guard, applied before
    trimming, lets it through, and an annotation with an empty message
    is stored. With the pattern of one blank the marker comes out empty
    in the same way. *)
Theorem blank_message_is_emitted :
  map (fun m => capture m 2) (matches defaultPattern "// TODO: ") = [" "]
  /\ extract defaultPattern "// TODO: " = [Candidate 0 9 "TODO" ""]
  /\ (forall h f,
        map text (scanText h defaultPattern f "// TODO: ") = ["[TODO] "])
  /\ map text (todos (manager (initializeStream Scenario.blankMessage
                                 (getInstance Scenario.blankMessage None))))
     = ["[TODO] "]
  /\ extract (Chr " ") "//  x" = [Candidate 0 5 "" "x"].
Proof.
  split; [vm_compute; reflexivity|].
  split; [vm_compute; reflexivity|].
  split; [intros h f; rewrite scanText_extract; vm_compute; reflexivity|].
  split; vm_compute; reflexivity.
Qed.

End GuardBeforeTrim.

(** ** The singleton *)

Section Singleton.
Import Vscode Manager.

(** C10: a call of [getInstance] on an existing instance runs
    [initialize] on it: the flat list, the file cache and the set of
    processed files are emptied, the status is the idle one and
    [isProcessing] is false, while [todosByFile] is what it was; so the
    call changes any instance that held annotations. *)
Theorem getInstance_reinitializes (h : Host) (m : TodoManager) :
  getInstance h (Some m) = initialize h m
  /\ todos (getInstance h (Some m)) = []
  /\ fileCache (getInstance h (Some m)) = ∅
  /\ processedFiles (getInstance h (Some m)) = ∅
  /\ status (getInstance h (Some m)) = mkStatus None 0 0 idle
  /\ isStillProcessing (getInstance h (Some m)) = false
  /\ todosByFile (getInstance h (Some m)) = todosByFile m
  /\ (forall f, getTodoCountInFile (getInstance h (Some m)) f
                = getTodoCountInFile m f)
  /\ (todos m = [] \/ getInstance h (Some m) <> m).
Proof.
  repeat split; try reflexivity.
  destruct (todos m) as [|t l] eqn:E; [left; reflexivity|right].
  intros Heq. apply (f_equal todos) in Heq. simpl in Heq. congruence.
Qed.

End Singleton.

(** ** Removing an annotation *)

Section Removal.
Import Vscode Manager Finder Panel.

(** When [removeTodo] fails, which of its three failures it was. *)
Lemma removeTodo_false h todo :
  fst (removeTodo h todo) = false ->
  snd (removeTodo h todo) = [invalidItem]
  \/ snd (removeTodo h todo) = [removalError]
  \/ snd (removeTodo h todo) = [removalRefused].
Proof.
  unfold removeTodo. destruct todo as [t|]; [|auto].
  destruct (negb (Js.truthy (file t))); [auto|].
  destruct (openTextDocument h (file t)); [|auto].
  destruct (applyEdit h (file t) (range t)) as [[|]|]; simpl; auto.
  discriminate.
Qed.

Lemma removeTodo_readOnly h t content :
  file t <> EmptyString ->
  openTextDocument h (file t) = Some content ->
  applyEdit h (file t) (range t) = Some false ->
  removeTodo h (Some t) = (false, [removalRefused]).
Proof.
  intros Hf Ho Ha. unfold removeTodo. rewrite Ho, Ha.
  destruct (file t); [congruence|reflexivity].
Qed.

(** [removeTodo] succeeds in one case only: the item names a file, the
    file opens and the edit is applied. *)
Lemma removeTodo_true h t :
  fst (removeTodo h (Some t)) = true
  <-> file t <> EmptyString
      /\ (exists content, openTextDocument h (file t) = Some content)
      /\ applyEdit h (file t) (range t) = Some true.
Proof.
  unfold removeTodo. split.
  - destruct (file t) as [|c f] eqn:Ef; [discriminate|]. cbn [Js.truthy negb].
    destruct (openTextDocument h (String c f)) as [content|]; [|discriminate].
    destruct (applyEdit h (String c f) (range t)) as [[|]|]; try discriminate.
    intros _. split; [discriminate|]. split; [exists content|]; reflexivity.
  - intros (Hf & (content & Ho) & Ha). rewrite Ho, Ha.
    destruct (file t); [congruence|reflexivity].
Qed.

(** C9: every failure of [removeTodo] resolves to false and shows one
    message - an absent item or one without a file (invalid item), a
    file that cannot be opened or an edit that throws (error), an edit
    that is refused (read-only file) - and these are all the failures:
    true is returned only when the file opens and the edit is applied.
    On each failure the [complete] handler leaves the panel and the
    manager inside it, hence the annotation list, as they were and
    starts no scan; on success the manager is the one a new scan
    leaves. *)
Theorem failed_removal_leaves_store (h h' : Host) (p : TodoPanelProvider)
  (todo : Todo)
  (Hcur : nth_error (_todos p) (_currentTodoIndex p) = Some todo) :
  removeTodo h None = (false, [invalidItem])
  /\ (file todo = EmptyString ->
      removeTodo h (Some todo) = (false, [invalidItem])
      /\ handleComplete h h' p = mkHandled p None [invalidItem])
  /\ (file todo <> EmptyString ->
      openTextDocument h (file todo) = None ->
      removeTodo h (Some todo) = (false, [removalError])
      /\ handleComplete h h' p = mkHandled p None [removalError])
  /\ (forall content,
        file todo <> EmptyString ->
        openTextDocument h (file todo) = Some content ->
        applyEdit h (file todo) (range todo) = None ->
        removeTodo h (Some todo) = (false, [removalError])
        /\ handleComplete h h' p = mkHandled p None [removalError])
  /\ (forall content,
        file todo <> EmptyString ->
        openTextDocument h (file todo) = Some content ->
        applyEdit h (file todo) (range todo) = Some false ->
        removeTodo h (Some todo) = (false, [removalRefused])
        /\ handleComplete h h' p = mkHandled p None [removalRefused])
  /\ (fst (removeTodo h (Some todo)) = true
      <-> file todo <> EmptyString
          /\ (exists content, openTextDocument h (file todo) = Some content)
          /\ applyEdit h (file todo) (range todo) = Some true)
  /\ (fst (removeTodo h (Some todo)) = false ->
       (exists n, snd (removeTodo h (Some todo)) = [n]
                  /\ (n = invalidItem \/ n = removalError
                      \/ n = removalRefused))
       /\ panel (handleComplete h h' p) = p
       /\ todos (_todoManager (panel (handleComplete h h' p)))
          = todos (_todoManager p)
       /\ pending (handleComplete h h' p) = None
       /\ shown (handleComplete h h' p) = snd (removeTodo h (Some todo)))
  /\ (fst (removeTodo h (Some todo)) = true ->
        _todoManager (panel (handleComplete h h' p))
        = manager (initializeStream h' (_todoManager p))).
Proof.
  assert (Hfail : forall msgs,
            removeTodo h (Some todo) = (false, msgs) ->
            removeTodo h (Some todo) = (false, msgs)
            /\ handleComplete h h' p = mkHandled p None msgs).
  { intros msgs E. split; [exact E|].
    unfold handleComplete. rewrite Hcur, E. reflexivity. }
  split; [reflexivity|].
  split.
  { intros Hf. apply Hfail. unfold removeTodo. rewrite Hf. reflexivity. }
  split.
  { intros Hf Ho. apply Hfail. unfold removeTodo. rewrite Ho.
    destruct (file todo); [congruence|reflexivity]. }
  split.
  { intros content Hf Ho Ha. apply Hfail. unfold removeTodo. rewrite Ho, Ha.
    destruct (file todo); [congruence|reflexivity]. }
  split.
  { intros content Hf Ho Ha. apply Hfail.
    exact (removeTodo_readOnly h todo content Hf Ho Ha). }
  split; [apply removeTodo_true|].
  unfold handleComplete. rewrite Hcur.
  destruct (removeTodo h (Some todo)) as [ok msgs] eqn:E.
  split; simpl; intros ->; simpl.
  - split; [|auto].
    pose proof (removeTodo_false h (Some todo)) as H.
    rewrite E in H. simpl in H.
    destruct (H eq_refl) as [ -> | [ -> | -> ] ]; eexists; split; eauto.
  - unfold _loadInitialTodos.
    destruct (initialBatch (initializeStream h' (_todoManager p)));
      reflexivity.
Qed.

(** Scenario 6: the current annotation is in a read-only file. *)
Lemma failed_removal_witness :
  removeTodo Scenario.smallReadOnly
    (Some (mkTodo "[TODO] one" "/w/a.ts" 0 0
             (mkRange (mkPosition 0 0) (mkPosition 0 12)) None))
  = (false, [removalRefused])
  /\ handleComplete Scenario.smallReadOnly Scenario.small Scenario.browsing
     = mkHandled Scenario.browsing None [removalRefused].
Proof.
  assert (Hcur : nth_error (_todos Scenario.browsing)
                           (_currentTodoIndex Scenario.browsing)
                 = Some (mkTodo "[TODO] one" "/w/a.ts" 0 0
                           (mkRange (mkPosition 0 0) (mkPosition 0 12)) None))
    by (vm_compute; reflexivity).
  destruct (failed_removal_leaves_store
              Scenario.smallReadOnly Scenario.small Scenario.browsing _ Hcur)
    as (_ & _ & _ & _ & Hrefused & _).
  exact (Hrefused Scenario.threeTodos
           ltac:(discriminate)
           ltac:(vm_compute; reflexivity)
           ltac:(vm_compute; reflexivity)).
Defined.

End Removal.

(** ** The two views of the store *)

Section StoreViews.
Import Vscode Manager.

(** The deletion handler rewrites the flat list only. *)
Lemma onDidDelete_todos filePath m :
  todos (onDidDelete filePath m)
  = List.filter (fun t => negb (String.eqb (file t) filePath)) (todos m).
Proof. reflexivity. Qed.

Lemma onDidDelete_todosByFile filePath m :
  todosByFile (onDidDelete filePath m) = todosByFile m.
Proof. reflexivity. Qed.

Lemma onDidDelete_flat_gone filePath m t :
  In t (todos (onDidDelete filePath m)) -> file t <> filePath.
Proof.
  rewrite onDidDelete_todos, filter_In. intros [_ H] Heq.
  apply negb_true_iff in H. apply String.eqb_neq in H. contradiction.
Qed.

Lemma onDidDelete_count filePath m f :
  getTodoCountInFile (onDidDelete filePath m) f = getTodoCountInFile m f.
Proof. reflexivity. Qed.

(** Starting a scan empties the flat list only. *)
Lemma beginScan_views m :
  todos (beginScan m) = [] /\ todosByFile (beginScan m) = todosByFile m.
Proof. split; reflexivity. Qed.

Lemma clearForRefresh_views m :
  todos (clearForRefresh m) = []
  /\ todosByFile (clearForRefresh m) = todosByFile m.
Proof. split; reflexivity. Qed.

(** C2, evaluated where it fails: [/w/a.ts] contributes three stored
    annotations; after the file-deleted signal the flat list holds none
    of them, but the per-file grouping still holds the three and
    [getTodoCountInFile] still answers 3. *)
Theorem delete_keeps_grouping :
  getTodoCountInFile Scenario.scanned "/w/a.ts" = 3
  /\ getTotalCount Scenario.scanned = 3
  /\ getTotalCount (onDidDelete "/w/a.ts" Scenario.scanned) = 0
  /\ getTodoCountInFile (onDidDelete "/w/a.ts" Scenario.scanned) "/w/a.ts" = 3
  /\ map text (getTodosInFile (onDidDelete "/w/a.ts" Scenario.scanned)
                              "/w/a.ts")
     = ["[TODO] one"; "[FIXME] two"; "[HACK] three"].
Proof. repeat split; vm_compute; reflexivity. Qed.

(** C1, evaluated where it fails: after the first scan the two views
    agree (3 and 3); after the deletion of [/w/a.ts], and after a
    refresh that finds the file without annotations, the flat list is
    empty while the grouping still counts three, annotations that are in
    no flat list. *)
Theorem views_disagree_after_mutation :
  (getTotalCount Scenario.scanned = 3 /\ groupedCount Scenario.scanned = 3)
  /\ (getTotalCount (onDidDelete "/w/a.ts" Scenario.scanned) = 0
      /\ groupedCount (onDidDelete "/w/a.ts" Scenario.scanned) = 3
      /\ exists t,
           In t (getTodosInFile (onDidDelete "/w/a.ts" Scenario.scanned)
                                "/w/a.ts")
           /\ ~ In t (todos (onDidDelete "/w/a.ts" Scenario.scanned)))
  /\ (getTotalCount
        (runBackground Scenario.smallEdited
           (refreshTodos Scenario.smallEdited Scenario.scanned)) = 0
      /\ groupedCount
           (runBackground Scenario.smallEdited
              (refreshTodos Scenario.smallEdited Scenario.scanned)) = 3).
Proof.
  split; [split; vm_compute; reflexivity|].
  split; [|split; vm_compute; reflexivity].
  split; [vm_compute; reflexivity|].
  split; [vm_compute; reflexivity|].
  exists (mkTodo "[TODO] one" "/w/a.ts" 0 0
            (mkRange (mkPosition 0 0) (mkPosition 0 12)) None).
  split; [vm_compute; left; reflexivity|].
  vm_compute. intros H. exact H.
Qed.

End StoreViews.

(** ** Paging through the flat list *)

Section Paging.
Import Vscode Manager.

Lemma firstn_enough {A} (l : list A) n : length l <= n -> firstn n l = l.
Proof. intros H. apply firstn_all2. exact H. Qed.

(** [slice] between two indices that are not negative. *)
Lemma slice_nat {A} (l : list A) (i j : nat) :
  Js.slice l (Z.of_nat i) (Z.of_nat j) = firstn (j - i) (skipn i l).
Proof.
  unfold Js.slice, Js.relIndex.
  destruct (Z.ltb_spec (Z.of_nat i) 0); [lia|].
  destruct (Z.ltb_spec (Z.of_nat j) 0); [lia|].
  rewrite <- !Nat2Z.inj_min.
  replace (Z.to_nat (Z.max (Z.of_nat (Nat.min j (length l))
                            - Z.of_nat (Nat.min i (length l))) 0))
    with (Nat.min j (length l) - Nat.min i (length l)) by lia.
  rewrite Nat2Z.id.
  destruct (le_lt_dec (length l) i) as [Hi|Hi].
  - rewrite (skipn_all2 l) by lia.
    rewrite (skipn_all2 l) by lia.
    rewrite !firstn_nil. reflexivity.
  - rewrite (Nat.min_l i) by lia.
    destruct (le_lt_dec j (length l)) as [Hj|Hj].
    + rewrite (Nat.min_l j) by lia. reflexivity.
    + rewrite (Nat.min_r j) by lia.
      rewrite !firstn_enough; [reflexivity| |]; rewrite length_skipn; lia.
Qed.

Lemma getNextBatch_nat m (i : nat) :
  getNextBatch m (Z.of_nat i) = firstn batchSize (skipn i (todos m)).
Proof.
  unfold getNextBatch.
  rewrite <- Nat2Z.inj_add, <- Nat2Z.inj_min, slice_nat.
  destruct (le_lt_dec (i + batchSize) (length (todos m))) as [H|H].
  - rewrite Nat.min_l by lia. f_equal. lia.
  - rewrite Nat.min_r by lia.
    rewrite !firstn_enough; [reflexivity| |]; rewrite length_skipn; lia.
Qed.

(** Cutting a list in pieces of [b] and gluing them again. *)
Lemma chunks_concat {A} (b : nat) : forall (n : nat) (l : list A),
  length l <= n * b ->
  concat (map (fun k => firstn b (skipn (k * b) l)) (seq 0 n)) = l.
Proof.
  induction n as [|n IH]; intros l Hlen.
  - simpl in *. destruct l; [reflexivity|simpl in Hlen; lia].
  - rewrite <- cons_seq, <- seq_shift, map_cons, map_map, concat_cons.
    rewrite (map_ext _ (fun k => firstn b (skipn (k * b) (skipn b l)))).
    + rewrite IH.
      * change (0 * b) with 0. rewrite skipn_O. apply firstn_skipn.
      * rewrite length_skipn. simpl in Hlen. lia.
    + intros k. rewrite skipn_skipn. do 2 f_equal. lia.
Qed.

(** C8: the batches at offsets 0, 20, 40, ... put end to end are the
    flat list, and the batch at an offset is empty exactly when the
    offset is at or past the length of the flat list. *)
Theorem getNextBatch_reconstructs (m : TodoManager) (n : nat) (startIndex : Z)
  (Hn : length (todos m) <= n * batchSize)
  (Hs : (0 <= startIndex)%Z) :
  concat (map (fun k => getNextBatch m (Z.of_nat (k * batchSize))) (seq 0 n))
  = todos m
  /\ (getNextBatch m startIndex = []
      <-> (Z.of_nat (getTotalCount m) <= startIndex)%Z).
Proof.
  split.
  - rewrite (map_ext _ (fun k => firstn batchSize
                                   (skipn (k * batchSize) (todos m)))).
    + apply chunks_concat. exact Hn.
    + intros k. apply getNextBatch_nat.
  - rewrite <- (Z2Nat.id startIndex) by exact Hs.
    rewrite getNextBatch_nat. unfold getTotalCount.
    set (i := Z.to_nat startIndex).
    split.
    + intros H. apply (f_equal (@length _)) in H.
      rewrite length_firstn, length_skipn in H. cbn [length] in H.
      unfold batchSize in H. lia.
    + intros H. rewrite skipn_all2 by lia. apply firstn_nil.
Qed.

(** The store of the first scenario has three annotations: one batch
    holds them all, and the batch at offset 3 is empty. *)
Lemma getNextBatch_witness :
  concat (map (fun k => getNextBatch Scenario.scanned
                          (Z.of_nat (k * batchSize))) (seq 0 1))
  = todos Scenario.scanned
  /\ (getNextBatch Scenario.scanned 3 = []
      <-> (Z.of_nat (getTotalCount Scenario.scanned) <= 3)%Z).
Proof.
  apply (getNextBatch_reconstructs Scenario.scanned 1 3).
  - vm_compute. lia.
  - lia.
Defined.

End Paging.

(** ** Scanning in batches *)

Section Scanning.
Import Vscode Manager.

Lemma processFile_seen h f m :
  f ∈ processedFiles m ->
  snd (processFile h f m) = AlreadyProcessed
  /\ todos (fst (processFile h f m)) = todos m
  /\ processedFiles (fst (processFile h f m)) = processedFiles m
  /\ fileCache (fst (processFile h f m)) = fileCache m.
Proof.
  intros H. unfold processFile. destruct (decide (f ∈ processedFiles m)); [|contradiction].
  repeat split; reflexivity.
Qed.

Lemma processFile_spec h f m :
  f ∉ processedFiles m ->
  foundBy (snd (processFile h f m)) = fileResult h m f
  /\ todos (fst (processFile h f m)) = (todos m ++ fileResult h m f)%list
  /\ processedFiles m ⊆ processedFiles (fst (processFile h f m))
  /\ processedFiles (fst (processFile h f m)) ⊆ {[f]} ∪ processedFiles m
  /\ (fileResult h m f <> [] -> f ∈ processedFiles (fst (processFile h f m)))
  /\ (forall g, g <> f ->
        fileCache (fst (processFile h f m)) !! g = fileCache m !! g)
  /\ todoPattern (fst (processFile h f m)) = todoPattern m
  /\ isProcessing (fst (processFile h f m)) = isProcessing m
  /\ state (status (fst (processFile h f m))) = state (status m)
  /\ totalFiles (status (fst (processFile h f m))) = totalFiles (status m)
  /\ filesProcessed (status (fst (processFile h f m)))
     = filesProcessed (status m) + 1.
Proof.
  intros H. unfold processFile, fileResult, readAndScan.
  destruct (decide (f ∈ processedFiles m)); [contradiction|].
  destruct (statMtime h f) as [mtime|]; simpl.
  2:{ rewrite app_nil_r. repeat split; try reflexivity; try set_solver. }
  change (shouldSkip (updateStatus _ m) f mtime) with (shouldSkip m f mtime).
  destruct (shouldSkip m f mtime); simpl.
  { rewrite app_nil_r. repeat split; try reflexivity; try set_solver. }
  destruct (openTextDocument h f) as [content|]; simpl.
  2:{ rewrite app_nil_r. repeat split; try reflexivity; try set_solver. }
  destruct (scanText h (todoPattern m) f content) eqn:E; simpl;
    repeat split; try reflexivity; try set_solver;
    intros g Hg; rewrite lookup_insert_ne; congruence.
Qed.

Lemma fileResult_ext h m m' f :
  fileCache m' !! f = fileCache m !! f ->
  todoPattern m' = todoPattern m ->
  fileResult h m' f = fileResult h m f.
Proof.
  intros Hc Hp. unfold fileResult, shouldSkip. rewrite Hc, Hp. reflexivity.
Qed.

Lemma processBatch_cons h f files m :
  processBatch h (f :: files) m
  = ((foundBy (snd (processFile h f m))
      ++ fst (processBatch h files (fst (processFile h f m))))%list,
     snd (processBatch h files (fst (processFile h f m)))).
Proof.
  simpl. destruct (processFile h f m) as [m1 o]. simpl.
  destruct (processBatch h files m1). reflexivity.
Qed.

Lemma processBatch_app h l1 : forall l2 m,
  processBatch h (l1 ++ l2) m
  = ((fst (processBatch h l1 m)
      ++ fst (processBatch h l2 (snd (processBatch h l1 m))))%list,
     snd (processBatch h l2 (snd (processBatch h l1 m)))).
Proof.
  induction l1 as [|f l1 IH]; intros l2 m.
  - simpl. destruct (processBatch h l2 m). reflexivity.
  - rewrite <- app_comm_cons, !processBatch_cons, IH. simpl.
    rewrite app_assoc. reflexivity.
Qed.

Lemma flat_map_ext_elem {A B} (f g : A -> list B) (l : list A) :
  (forall a, a ∈ l -> f a = g a) -> flat_map f l = flat_map g l.
Proof.
  induction l as [|a l IH]; intros H; [reflexivity|].
  simpl. rewrite (H a) by left. rewrite IH; [reflexivity|].
  intros b Hb. apply H. right. exact Hb.
Qed.

Lemma processBatch_spec h files : forall m,
  NoDup files ->
  (forall f, f ∈ files -> f ∉ processedFiles m) ->
  fst (processBatch h files m) = flat_map (fileResult h m) files
  /\ todos (snd (processBatch h files m))
     = (todos m ++ flat_map (fileResult h m) files)%list
  /\ processedFiles m ⊆ processedFiles (snd (processBatch h files m))
  /\ processedFiles (snd (processBatch h files m))
     ⊆ list_to_set files ∪ processedFiles m
  /\ (forall f, f ∈ files -> fileResult h m f <> [] ->
        f ∈ processedFiles (snd (processBatch h files m)))
  /\ (forall g, g ∉ files ->
        fileCache (snd (processBatch h files m)) !! g = fileCache m !! g)
  /\ todoPattern (snd (processBatch h files m)) = todoPattern m
  /\ isProcessing (snd (processBatch h files m)) = isProcessing m
  /\ state (status (snd (processBatch h files m))) = state (status m)
  /\ totalFiles (status (snd (processBatch h files m)))
     = totalFiles (status m)
  /\ filesProcessed (status (snd (processBatch h files m)))
     = filesProcessed (status m) + length files.
Proof.
  induction files as [|f files IH]; intros m Hnd Hnew.
  - simpl. rewrite app_nil_r, Nat.add_0_r.
    repeat split; try reflexivity; set_solver.
  - apply NoDup_cons in Hnd as [Hf Hnd].
    rewrite processBatch_cons. simpl fst. simpl snd.
    destruct (processFile_spec h f m) as
      (Hfound & Htodos & Hmono & Hsub & Hmark & Hcache & Hpat & Hproc & Hst
       & Htot & Hcnt).
    { apply Hnew. left. }
    set (m1 := fst (processFile h f m)) in *.
    destruct (IH m1 Hnd) as
      (Ifst & Itodos & Imono & Isub & Imark & Icache & Ipat & Iproc & Ist
       & Itot & Icnt).
    { intros g Hg Hin. apply Hsub in Hin.
      apply elem_of_union in Hin as [Hin|Hin].
      - apply elem_of_singleton in Hin. subst g. contradiction.
      - apply (Hnew g); [right; exact Hg|exact Hin]. }
    assert (Hext : flat_map (fileResult h m1) files
                   = flat_map (fileResult h m) files).
    { apply flat_map_ext_elem. intros g Hg. apply fileResult_ext.
      - apply Hcache. intros ->. contradiction.
      - exact Hpat. }
    rewrite Hext in *.
    repeat split.
    + simpl. rewrite Hfound, Ifst. reflexivity.
    + rewrite Itodos, Htodos. simpl. rewrite app_assoc. reflexivity.
    + clear - Hmono Imono. set_solver.
    + intros x Hx. rewrite list_to_set_cons.
      apply Isub, elem_of_union in Hx as [Hx|Hx].
      * apply elem_of_union_l, elem_of_union_r, Hx.
      * apply Hsub, elem_of_union in Hx as [Hx|Hx].
        -- apply elem_of_union_l, elem_of_union_l, Hx.
        -- apply elem_of_union_r, Hx.
    + intros g Hg Hres. apply elem_of_cons in Hg as [->|Hg].
      * apply Imono, Hmark, Hres.
      * apply Imark; [exact Hg|].
        rewrite (fileResult_ext h m m1); [exact Hres| |exact Hpat].
        apply Hcache. intros ->. contradiction.
    + intros g Hg. apply not_elem_of_cons in Hg as [Hgf Hg].
      rewrite Icache by exact Hg. apply Hcache. exact Hgf.
    + congruence.
    + congruence.
    + congruence.
    + congruence.
    + rewrite Icnt, Hcnt. simpl. lia.
Qed.

Lemma dedupFrom_spec l : forall seen,
  NoDup (dedupFrom seen l)
  /\ forall x, x ∈ dedupFrom seen l <-> x ∈ l /\ x ∉ seen.
Proof.
  induction l as [|a l IH]; intros seen; simpl.
  - split; [constructor|]. intros x. split.
    + intros H. inversion H.
    + intros [H _]. inversion H.
  - destruct (decide (a ∈ seen)) as [Ha|Ha].
    + destruct (IH seen) as [Hnd Hin]. split; [exact Hnd|].
      intros x. rewrite Hin, elem_of_cons. split.
      * intros [Hx Hs]. auto.
      * intros [[->|Hx] Hs]; [contradiction|auto].
    + destruct (IH ({[a]} ∪ seen)) as [Hnd Hin]. split.
      * apply NoDup_cons. split; [|exact Hnd].
        rewrite Hin. intros [_ Hx]. apply Hx, elem_of_union_l.
        apply elem_of_singleton. reflexivity.
      * intros x. rewrite !elem_of_cons, Hin, not_elem_of_union,
          not_elem_of_singleton.
        destruct (decide (x = a)) as [->|Hne]; intuition.
Qed.

Lemma NoDup_dedup l : NoDup (dedup l).
Proof. apply dedupFrom_spec. Qed.

Lemma elem_of_dedup l x : x ∈ dedup l <-> x ∈ l.
Proof.
  unfold dedup. rewrite (proj2 (dedupFrom_spec l ∅)).
  split; [intros [H _]; exact H|]. intros H. split; [exact H|].
  apply not_elem_of_empty.
Qed.

Lemma remainingLoop_processBatch h files : forall fuel i m,
  length files - i <= fuel ->
  remainingLoop fuel h files i m = snd (processBatch h (skipn i files) m).
Proof.
  induction fuel as [|fuel IH]; intros i m Hfuel.
  - simpl. rewrite skipn_all2 by lia. reflexivity.
  - simpl. destruct (Nat.ltb_spec i (length files)) as [Hi|Hi].
    + rewrite IH by (unfold batchSize; lia).
      rewrite Nat2Z.inj_add, <- Nat2Z.inj_add, slice_nat.
      replace (i + batchSize - i) with batchSize by lia.
      rewrite <- (firstn_skipn batchSize (skipn i files)) at 2.
      rewrite processBatch_app. simpl.
      rewrite skipn_skipn, (Nat.add_comm batchSize i). reflexivity.
    + rewrite skipn_all2 by lia. reflexivity.
Qed.

Lemma scanFiles_unfold h found m :
  scanFiles h found m
  = let files := dedup found in
    let r := processBatch h (firstn batchSize files)
               (updateStatus (withTotalFiles (length files)) m) in
    if batchSize <? length files then
      mkStarted (fst r) (snd r) (Some (skipn batchSize files)) []
    else
      mkStarted (fst r) (updateStatus (withState complete) (snd r)) None [].
Proof.
  unfold scanFiles. cbv zeta.
  change 0%Z with (Z.of_nat 0). rewrite !slice_nat.
  rewrite Nat.sub_0_r, skipn_O.
  rewrite (firstn_enough (skipn batchSize (dedup found)))
    by (rewrite length_skipn; lia).
  destruct (processBatch h (firstn batchSize (dedup found)) _). reflexivity.
Qed.

Lemma NoDup_split {A} (l : list A) n :
  NoDup l ->
  NoDup (firstn n l) /\ NoDup (skipn n l)
  /\ forall x, x ∈ skipn n l -> x ∉ firstn n l.
Proof.
  intros H. rewrite <- (firstn_skipn n l) in H.
  apply NoDup_app in H as (H1 & H2 & H3).
  split; [exact H1|]. split; [exact H3|].
  intros x Hx Hx'. exact (H2 x Hx' Hx).
Qed.

(** C3: for the N files the enumeration yields (duplicates removed),
    [initializeStream] returns the annotations of the first
    min(20, N) files, file after file in enumeration order, and the
    store holds just those at return; if N > 20 the manager is still
    processing, its state is [searching] and the remaining files have
    been handed to the background call; once that call has run, the
    state is [complete], every file has been counted, and the flat list
    is made of the results of all N files in order, so [getTotalCount]
    is the sum of their sizes. A file whose modification time is in the
    cache is skipped and contributes nothing; when no file is in that
    case, the flat list holds the annotations of every readable file. *)
Theorem first_batch_then_background (h : Host) (m : TodoManager)
  (found : list string)
  (Hws : workspaceFolders h = true)
  (Hfind : findFiles h = Some found) :
  let files := dedup found in
  let s := initializeStream h m in
  initialBatch s = flat_map (fileResult h m) (firstn batchSize files)
  /\ (forall t, In t (initialBatch s) ->
        In (file t) (firstn batchSize files))
  /\ todos (manager s) = initialBatch s
  /\ (batchSize < length files ->
        isStillProcessing (manager s) = true
        /\ state (getStatus (manager s)) = searching
        /\ background s = Some (skipn batchSize files))
  /\ state (getStatus (runBackground h s)) = complete
  /\ filesProcessed (getStatus (runBackground h s)) = length files
  /\ todos (runBackground h s) = flat_map (fileResult h m) files
  /\ getTotalCount (runBackground h s)
     = list_sum (map (fun f => length (fileResult h m f)) files)
  /\ ((forall f mtime, In f files -> statMtime h f = Some mtime ->
         shouldSkip m f mtime = false) ->
      todos (runBackground h s)
      = flat_map (freshResult h (todoPattern m)) files).
Proof.
  intros files s.
  assert (Hs : s = scanFiles h found (beginScan m)).
  { unfold s, initializeStream. rewrite Hws, Hfind. reflexivity. }
  rewrite scanFiles_unfold in Hs. cbv zeta in Hs. fold files in Hs.
  set (m1 := updateStatus (withTotalFiles (length files)) (beginScan m)) in Hs.
  destruct (NoDup_split files batchSize (NoDup_dedup found))
    as (Hnd1 & Hnd2 & Hdisj).
  destruct (processBatch_spec h (firstn batchSize files) m1 Hnd1) as
    (Afst & Atodos & Amono & Asub & Amark & Acache & Apat & Aproc & Ast
       & Atot & Acnt).
  { intros f _. apply not_elem_of_empty. }
  set (r := processBatch h (firstn batchSize files) m1) in *.
  change (fileResult h m1) with (fileResult h m) in *.
  change (todos m1) with (@nil Todo) in Atodos. simpl in Atodos.
  assert (Hinit : initialBatch s = flat_map (fileResult h m)
                                     (firstn batchSize files)).
  { rewrite Hs. destruct (batchSize <? length files); exact Afst. }
  assert (Hbg : todos (runBackground h s) = flat_map (fileResult h m) files
                /\ state (getStatus (runBackground h s)) = complete
                /\ filesProcessed (getStatus (runBackground h s))
                   = length files).
  { rewrite Hs. destruct (Nat.ltb_spec batchSize (length files)) as [Hlt|Hge].
    - unfold runBackground, processRemainingFiles. simpl.
      rewrite remainingLoop_processBatch by lia. rewrite skipn_O.
      destruct (processBatch_spec h (skipn batchSize files) (snd r) Hnd2) as
        (Bfst & Btodos & Bmono & Bsub & Bmark & Bcache & Bpat & Bproc & Bst
           & Btot & Bcnt).
      { intros f Hf Hin. apply Asub in Hin.
        apply elem_of_union in Hin as [Hin|Hin].
        - apply elem_of_list_to_set in Hin. exact (Hdisj f Hf Hin).
        - revert Hin. apply not_elem_of_empty. }
      split; [|split; [reflexivity|]].
      + rewrite Btodos, Atodos.
        rewrite (flat_map_ext_elem (fileResult h (snd r)) (fileResult h m)).
        * rewrite <- flat_map_app, firstn_skipn. reflexivity.
        * intros f Hf. apply fileResult_ext; [|exact Apat].
          rewrite Acache; [reflexivity|]. exact (Hdisj f Hf).
      + rewrite Bcnt, Acnt. simpl. rewrite length_firstn, length_skipn. lia.
    - unfold runBackground. simpl.
      rewrite (firstn_enough files) in * by exact Hge.
      split; [exact Atodos|]. split; [reflexivity|].
      rewrite Acnt. simpl. reflexivity. }
  destruct Hbg as (Hall & Hstate & Hcount).
  split; [exact Hinit|].
  split.
  { intros t Ht. rewrite Hinit in Ht. apply in_flat_map in Ht as (f & Hf & Ht).
    assert (file t = f) as ->; [|exact Hf].
    unfold fileResult, readAndScan in Ht.
    destruct (statMtime h f); [|contradiction].
    destruct (shouldSkip m f z); [contradiction|].
    destruct (openTextDocument h f); [|contradiction].
    exact (file_scanText _ _ _ _ _ Ht). }
  split.
  { rewrite Hinit, Hs. destruct (batchSize <? length files); exact Atodos. }
  split.
  { intros Hlt. rewrite Hs.
    destruct (Nat.ltb_spec batchSize (length files)) as [_|Hge]; [|lia].
    simpl. split; [exact Aproc|]. split; [exact Ast|reflexivity]. }
  split; [exact Hstate|]. split; [exact Hcount|]. split; [exact Hall|].
  split.
  { unfold getTotalCount. rewrite Hall. apply length_flat_map. }
  intros Hcold. rewrite Hall. apply flat_map_ext_elem. intros f Hf.
  unfold fileResult, freshResult.
  destruct (statMtime h f) as [mtime|] eqn:E; [|reflexivity].
  rewrite (Hcold f mtime); [reflexivity| |exact E].
  apply list_elem_of_In. exact Hf.
Qed.

(** Every file of a scan is met while it is not yet marked processed,
    with the cache entry it had when the scan began. *)
Lemma scan_meets_file_unprocessed h (l1 : list string) f l2 m :
  NoDup (l1 ++ f :: l2)%list ->
  (forall g, g ∈ (l1 ++ f :: l2)%list -> g ∉ processedFiles m) ->
  processBatch h (l1 ++ f :: l2)%list m
  = ((fst (processBatch h l1 m)
      ++ (foundBy (snd (processFile h f (snd (processBatch h l1 m))))
          ++ fst (processBatch h l2
                    (fst (processFile h f (snd (processBatch h l1 m)))))))%list,
     snd (processBatch h l2
            (fst (processFile h f (snd (processBatch h l1 m))))))
  /\ (f ∉ processedFiles (snd (processBatch h l1 m)))
  /\ (fileCache (snd (processBatch h l1 m)) !! f) = (fileCache m !! f).
Proof.
  intros Hnd Hnew. split.
  { rewrite processBatch_app, processBatch_cons. reflexivity. }
  apply NoDup_app in Hnd as (Hnd1 & Hdisj & _).
  destruct (processBatch_spec h l1 m Hnd1) as (_ & _ & _ & Hsub & _ & Hcache & _).
  { intros g Hg. apply Hnew, elem_of_app. left. exact Hg. }
  assert (Hf : f ∉ l1).
  { intros Hin. apply (Hdisj f Hin). left. }
  split; [|apply Hcache; exact Hf].
  intros Hin. apply Hsub, elem_of_union in Hin as [Hin|Hin].
  - apply elem_of_list_to_set in Hin. contradiction.
  - revert Hin. apply Hnew, elem_of_app. right. left.
Qed.

(** Scenario 3: forty-five files with one annotation each. The first
    batch has the 20 annotations of the first 20 files, the scan is in
    progress at return, and after the background call the state is
    [complete] and the total count is 45. *)
Lemma first_batch_witness :
  length (initialBatch (initializeStream Scenario.large
                          (getInstance Scenario.large None))) = 20
  /\ isStillProcessing (manager (initializeStream Scenario.large
                                   (getInstance Scenario.large None))) = true
  /\ state (getStatus (runBackground Scenario.large
                         (initializeStream Scenario.large
                            (getInstance Scenario.large None)))) = complete
  /\ getTotalCount (runBackground Scenario.large
                      (initializeStream Scenario.large
                         (getInstance Scenario.large None))) = 45.
Proof.
  destruct (first_batch_then_background Scenario.large
              (getInstance Scenario.large None)
              (map fst (Scenario.numbered 45)) eq_refl eq_refl)
    as (Hinit & _ & _ & Hbusy & Hstate & _ & _ & Htotal & _).
  split; [rewrite Hinit; vm_compute; reflexivity|].
  split; [apply Hbusy; vm_compute; lia|].
  split; [exact Hstate|].
  rewrite Htotal. vm_compute. reflexivity.
Defined.

(** *** The cache decides what is read again *)

(** C5: for a file that the current scan has not yet marked processed
    and whose [stat] gives [mtime], the loop body skips the file without
    opening it exactly when the cache holds an entry for it whose
    [lastModified] is [mtime]; a skipped file leaves the store and the
    cache as they were; a file that is not skipped is opened, and if it
    opens it is extracted; in particular a file whose cache entry has
    another modification time is extracted again, its annotations are
    appended and its cache entry is renewed. *)
Theorem cache_decides_skip (h : Host) (m : TodoManager) (f : string)
  (mtime : Z)
  (Hnew : f ∉ processedFiles m)
  (Hstat : statMtime h f = Some mtime) :
  (snd (processFile h f m) = CacheSkip
   <-> exists cached, fileCache m !! f = Some cached
                      /\ lastModified cached = mtime)
  /\ (snd (processFile h f m) = CacheSkip ->
        todos (fst (processFile h f m)) = todos m
        /\ todosByFile (fst (processFile h f m)) = todosByFile m
        /\ fileCache (fst (processFile h f m)) = fileCache m
        /\ f ∈ processedFiles (fst (processFile h f m)))
  /\ (snd (processFile h f m) <> CacheSkip ->
        (openTextDocument h f = None
         /\ snd (processFile h f m) = OpenFailed)
        \/ exists content,
             openTextDocument h f = Some content
             /\ snd (processFile h f m)
                = Scanned (scanText h (todoPattern m) f content))
  /\ (forall cached content,
        fileCache m !! f = Some cached ->
        lastModified cached <> mtime ->
        openTextDocument h f = Some content ->
        snd (processFile h f m)
        = Scanned (scanText h (todoPattern m) f content)
        /\ todos (fst (processFile h f m))
           = (todos m ++ scanText h (todoPattern m) f content)%list
        /\ fileCache (fst (processFile h f m)) !! f
           = Some (mkFileCache (now h) mtime)).
Proof.
  unfold processFile.
  destruct (decide (f ∈ processedFiles m)); [contradiction|].
  rewrite Hstat.
  change (shouldSkip (updateStatus _ m) f mtime) with (shouldSkip m f mtime).
  unfold shouldSkip.
  destruct (fileCache m !! f) as [cached|] eqn:Ec.
  - destruct (Z.eqb_spec (lastModified cached) mtime) as [Heq|Hne].
    + split; [split; [intros _; eauto|reflexivity]|].
      split; [intros _; simpl; repeat split; try reflexivity;
              apply elem_of_union_l, elem_of_singleton; reflexivity|].
      split; [intros H; contradiction H; reflexivity|].
      intros c content Hc Hdiff. congruence.
    + destruct (openTextDocument h f) as [content|] eqn:Eo.
      * split; [split; [discriminate|intros (c & Hc & Hm); congruence]|].
        split; [discriminate|].
        split; [intros _; right; eauto|].
        intros c content' _ _ Hcontent. injection Hcontent as <-.
        split; [reflexivity|].
        destruct (scanText h _ f content); simpl;
          (split; [reflexivity|apply lookup_insert_eq]).
      * split; [split; [discriminate|intros (c & Hc & Hm); congruence]|].
        split; [discriminate|].
        split; [intros _; left; auto|].
        intros c content _ _ Hcontent. discriminate.
  - destruct (openTextDocument h f) as [content|] eqn:Eo.
    + split; [split; [discriminate|intros (c & Hc & _); discriminate]|].
      split; [discriminate|].
      split; [intros _; right; eauto|].
      intros c content' Hc. discriminate.
    + split; [split; [discriminate|intros (c & Hc & _); discriminate]|].
      split; [discriminate|].
      split; [intros _; left; auto|].
      intros c content' Hc. discriminate.
Qed.

(** Scenario 4: [/w/a.ts] was scanned with modification time 100 and is
    met again, by the next scan, with modification time 200: it is not
    skipped. *)
Lemma cache_decides_skip_witness :
  snd (processFile Scenario.smallEdited "/w/a.ts"
                   (beginScan Scenario.scanned)) <> CacheSkip
  /\ shouldSkip (beginScan Scenario.scanned) "/w/a.ts" 200 = false.
Proof.
  destruct (cache_decides_skip Scenario.smallEdited
              (beginScan Scenario.scanned) "/w/a.ts" 200%Z)
    as (Hiff & _).
  - vm_compute. intros H. inversion H.
  - reflexivity.
  - split; [|vm_compute; reflexivity].
    intros Hskip. apply Hiff in Hskip as (cached & Hc & Hm).
    vm_compute in Hc. injection Hc as <-. discriminate Hm.
Defined.

End Scanning.

(** ** A scan started while another one is still in flight *)

Section Superseded.
Import Vscode Manager.

(** [refreshTodos] and [initializeStream] up to the enumeration, then
    the rest: the point where a pending background call can run. *)
Lemma refreshTodos_phases h m found :
  workspaceFolders h = true ->
  findFiles h = Some found ->
  refreshTodos h m = scanFiles h found (beginScan (clearForRefresh m)).
Proof.
  intros Hws Hfind. unfold refreshTodos, initializeStream.
  rewrite Hws, Hfind. reflexivity.
Qed.

(** C4, as the code has it: a new scan only empties the flat list and
    the set of processed files; a background call of the scan before,
    running after that, is not told apart from the new scan: the
    annotations of its files are appended to the new store, it ends by
    declaring the scan over, and a file it has extracted is found
    already processed by the new scan, which skips it. *)
Theorem stale_continuation_feeds_fresh_store (h : Host) (m : TodoManager)
  (stale : list string)
  (Hnd : NoDup stale) :
  todos (beginScan m) = []
  /\ todos (processRemainingFiles h stale (beginScan m))
     = flat_map (fileResult h m) stale
  /\ isStillProcessing (processRemainingFiles h stale (beginScan m)) = false
  /\ state (getStatus (processRemainingFiles h stale (beginScan m)))
     = complete
  /\ (forall f, In f stale -> fileResult h m f <> [] ->
        snd (processFile h f (processRemainingFiles h stale (beginScan m)))
        = AlreadyProcessed).
Proof.
  split; [reflexivity|].
  unfold processRemainingFiles.
  rewrite remainingLoop_processBatch by lia. rewrite skipn_O.
  destruct (processBatch_spec h stale (beginScan m) Hnd) as
    (_ & Htodos & _ & _ & Hmark & _).
  { intros f _. apply not_elem_of_empty. }
  change (fileResult h (beginScan m)) with (fileResult h m) in *.
  split; [exact Htodos|]. split; [reflexivity|]. split; [reflexivity|].
  intros f Hf Hres. apply processFile_seen. simpl.
  apply Hmark; [apply list_elem_of_In; exact Hf|exact Hres].
Qed.

(** The scan of twenty-one files leaves [/w/f20.ts] to the background
    call; a refresh begins before that call has run; the call then
    stores the annotation of [/w/f20.ts] in the store of the refresh. *)
Lemma stale_continuation_witness :
  todos (processRemainingFiles Scenario.twentyOne ["/w/f20.ts"]
                               (beginScan (manager Scenario.firstScan)))
  = flat_map (fileResult Scenario.twentyOne (manager Scenario.firstScan))
             ["/w/f20.ts"].
Proof.
  apply (stale_continuation_feeds_fresh_store Scenario.twentyOne
           (manager Scenario.firstScan) ["/w/f20.ts"]).
  apply NoDup_singleton.
Defined.

(** C4 as stated fails: nothing is discarded. When the refresh has begun
    the store is empty; once the background call of the first scan has
    run, the store holds what that call found, and the refresh, going
    on from there, keeps it in front of its own results. *)
Lemma stale_results_enter_fresh_store :
  background Scenario.firstScan = Some ["/w/f20.ts"]
  /\ todos Scenario.refreshBegun = []
  /\ map text (todos Scenario.staleDone) = ["[TODO] task 20"]
  /\ todos Scenario.staleDone <> todos Scenario.refreshBegun
  /\ isStillProcessing Scenario.staleDone = false
  /\ hd_error
       (map text
          (todos (runBackground Scenario.twentyOne
                    (scanFiles Scenario.twentyOne
                       (map fst (Scenario.numbered 21))
                       Scenario.staleDone))))
     = Some "[TODO] task 20".
Proof.
  split; [vm_compute; reflexivity|].
  split; [reflexivity|].
  split; [vm_compute; reflexivity|].
  split; [vm_compute; discriminate|].
  split; vm_compute; reflexivity.
Qed.

End Superseded.

(** ** What a batch returns and stores *)

Section BatchFacts.
Import Vscode Manager Results Workspaces.

Ltac processFile_paths h f m :=
  let mt := fresh "mtime" in
  let content := fresh "content" in
  unfold processFile, contribution, fileResult, readAndScan;
  destruct (decide (f ∈ processedFiles m)) as [?Hin|?Hout];
  [|destruct (statMtime h f) as [mt|] eqn:?Hstat;
    [change (shouldSkip (updateStatus _ m) f mt) with (shouldSkip m f mt);
     destruct (shouldSkip m f mt) eqn:?Hskip;
     [|destruct (openTextDocument h f) as [content|] eqn:?Hopen;
       [cbn [todoPattern updateStatus setStatus];
        destruct (scanText h (todoPattern m) f content) as [|?t ?ts]
          eqn:?Hscan|]]
    |]];
  cbn [fst snd foundBy todos processedFiles fileCache todosByFile
       todoPattern isProcessing status setProcessedFiles setTodos
       setTodosByFile setFileCache updateStatus setStatus state totalFiles
       filesProcessed withFilesProcessed withCurrentFile].

Lemma processFile_found h f m :
  foundBy (snd (processFile h f m)) = contribution h m f
  /\ todos (fst (processFile h f m)) = (todos m ++ contribution h m f)%list.
Proof.
  processFile_paths h f m; rewrite ?app_nil_r; split; reflexivity.
Qed.

Lemma processFile_frame h f m :
  todoPattern (fst (processFile h f m)) = todoPattern m
  /\ isProcessing (fst (processFile h f m)) = isProcessing m
  /\ state (status (fst (processFile h f m))) = state (status m)
  /\ totalFiles (status (fst (processFile h f m))) = totalFiles (status m)
  /\ filesProcessed (status (fst (processFile h f m)))
     = filesProcessed (status m) + 1.
Proof.
  processFile_paths h f m; repeat split; reflexivity.
Qed.

Lemma processFile_processed h f m :
  processedFiles m ⊆ processedFiles (fst (processFile h f m))
  /\ processedFiles (fst (processFile h f m)) ⊆ {[f]} ∪ processedFiles m.
Proof.
  processFile_paths h f m; split; intros x Hx;
    rewrite ?elem_of_union in *; auto.
Qed.

Lemma processFile_others h f m g :
  g <> f ->
  fileCache (fst (processFile h f m)) !! g = fileCache m !! g
  /\ todosByFile (fst (processFile h f m)) !! g = todosByFile m !! g
  /\ (g ∈ processedFiles (fst (processFile h f m)) <-> g ∈ processedFiles m).
Proof.
  intros Hg.
  processFile_paths h f m;
    rewrite ?elem_of_union, ?elem_of_singleton, ?lookup_insert_ne
      by congruence;
    repeat split; try reflexivity; intuition.
Qed.

Lemma processFile_grouping h f m :
  todosByFile (fst (processFile h f m)) !! f
  = match contribution h m f with
    | [] => todosByFile m !! f
    | l => Some l
    end.
Proof.
  processFile_paths h f m; rewrite ?lookup_insert_eq; reflexivity.
Qed.

(** Once a file has been through the loop body it has nothing more to
    contribute, as long as the host answers the same. *)
Lemma processFile_settled h f m :
  contribution h (fst (processFile h f m)) f = [].
Proof.
  unfold contribution at 1.
  destruct (decide (f ∈ processedFiles (fst (processFile h f m))))
    as [|Hnot]; [reflexivity|].
  revert Hnot. unfold fileResult at 1. unfold readAndScan, shouldSkip.
  processFile_paths h f m; intros Hnot; try contradiction;
    try (exfalso; apply Hnot, elem_of_union_l, elem_of_singleton;
         reflexivity).
  - destruct (match fileCache m !! f with Some _ => _ | None => _ end);
      reflexivity.
  - reflexivity.
Qed.

Lemma contribution_ext h m m' g :
  fileCache m' !! g = fileCache m !! g ->
  todoPattern m' = todoPattern m ->
  (g ∈ processedFiles m' <-> g ∈ processedFiles m) ->
  contribution h m' g = contribution h m g.
Proof.
  intros Hc Hp Hs. unfold contribution.
  destruct (decide (g ∈ processedFiles m')) as [H|H],
           (decide (g ∈ processedFiles m)) as [H'|H']; try reflexivity;
    try tauto.
  apply fileResult_ext; assumption.
Qed.

Lemma processFile_contribution_other h f m g :
  g <> f ->
  contribution h (fst (processFile h f m)) g = contribution h m g.
Proof.
  intros Hg. destruct (processFile_others h f m g Hg) as (Hc & _ & Hs).
  apply contribution_ext; [exact Hc| |exact Hs].
  apply processFile_frame.
Qed.

Lemma processBatch_found h files : forall m,
  todos (snd (processBatch h files m))
  = (todos m ++ fst (processBatch h files m))%list.
Proof.
  induction files as [|f files IH]; intros m.
  - simpl. rewrite app_nil_r. reflexivity.
  - rewrite processBatch_cons. cbn [fst snd].
    rewrite IH, (proj2 (processFile_found h f m)),
      (proj1 (processFile_found h f m)), app_assoc. reflexivity.
Qed.

Lemma processBatch_frame h files : forall m,
  todoPattern (snd (processBatch h files m)) = todoPattern m
  /\ isProcessing (snd (processBatch h files m)) = isProcessing m
  /\ state (status (snd (processBatch h files m))) = state (status m)
  /\ totalFiles (status (snd (processBatch h files m)))
     = totalFiles (status m)
  /\ filesProcessed (status (snd (processBatch h files m)))
     = filesProcessed (status m) + length files.
Proof.
  induction files as [|f files IH]; intros m.
  - simpl. rewrite Nat.add_0_r. repeat split; reflexivity.
  - rewrite processBatch_cons. cbn [fst snd length].
    destruct (IH (fst (processFile h f m))) as (I1 & I2 & I3 & I4 & I5).
    destruct (processFile_frame h f m) as (F1 & F2 & F3 & F4 & F5).
    rewrite I1, I2, I3, I4, I5, F1, F2, F3, F4, F5.
    repeat split; try reflexivity. lia.
Qed.

Lemma processBatch_others h files g : forall m,
  g ∉ files ->
  fileCache (snd (processBatch h files m)) !! g = fileCache m !! g
  /\ todosByFile (snd (processBatch h files m)) !! g = todosByFile m !! g
  /\ (g ∈ processedFiles (snd (processBatch h files m))
      <-> g ∈ processedFiles m)
  /\ contribution h (snd (processBatch h files m)) g = contribution h m g.
Proof.
  induction files as [|f files IH]; intros m Hg.
  - simpl. repeat split; auto.
  - apply not_elem_of_cons in Hg as [Hgf Hg].
    rewrite processBatch_cons. cbn [fst snd].
    destruct (IH (fst (processFile h f m)) Hg) as (I1 & I2 & I3 & I4).
    destruct (processFile_others h f m g Hgf) as (F1 & F2 & F3).
    rewrite I1, I2, I3, I4, F1, F2, F3.
    repeat split; auto. apply processFile_contribution_other. exact Hgf.
Qed.

Lemma processBatch_mono h files : forall m,
  processedFiles m ⊆ processedFiles (snd (processBatch h files m)).
Proof.
  induction files as [|f files IH]; intros m; [simpl; reflexivity|].
  rewrite processBatch_cons. cbn [snd]. intros x Hx.
  apply IH, processFile_processed, Hx.
Qed.

(** After a batch, none of its files has anything more to contribute. *)
Lemma processBatch_settled h files : forall m g,
  g ∈ files -> contribution h (snd (processBatch h files m)) g = [].
Proof.
  induction files as [|f files IH]; intros m g Hg; [inversion Hg|].
  rewrite processBatch_cons. cbn [snd].
  destruct (decide (g ∈ files)) as [Hin|Hout]; [apply IH; exact Hin|].
  apply elem_of_cons in Hg as [->|Hg]; [|contradiction].
  rewrite (proj2 (proj2 (proj2 (processBatch_others h files f _ Hout)))).
  apply processFile_settled.
Qed.

Lemma flat_map_nil {A B} (f : A -> list B) (l : list A) :
  (forall a, a ∈ l -> f a = []) -> flat_map f l = [].
Proof.
  induction l as [|a l IH]; intros H; [reflexivity|]. simpl.
  rewrite (H a) by left. apply IH. intros b Hb. apply H. right. exact Hb.
Qed.

Lemma dedupFrom_filter f l : forall seen,
  dedupFrom ({[f]} ∪ seen) l
  = List.filter (fun g => negb (String.eqb g f)) (dedupFrom seen l).
Proof.
  induction l as [|a l IH]; intros seen; [reflexivity|]. simpl.
  destruct (decide (a ∈ seen)) as [Ha|Ha].
  - destruct (decide (a ∈ {[f]} ∪ seen)) as [_|Hn]; [apply IH|].
    exfalso. apply Hn, elem_of_union_r, Ha.
  - simpl. destruct (String.eqb_spec a f) as [->|Hne]; simpl.
    + destruct (decide (f ∈ {[f]} ∪ seen)) as [_|Hn].
      * replace ({[f]} ∪ seen) with ({[f]} ∪ ({[f]} ∪ seen)) at 1
          by (apply set_eq; intros x; rewrite !elem_of_union; tauto).
        apply IH.
      * exfalso. apply Hn, elem_of_union_l, elem_of_singleton. reflexivity.
    + destruct (decide (a ∈ {[f]} ∪ seen)) as [Hin|_].
      * exfalso. apply elem_of_union in Hin as [Hin|Hin]; [|contradiction].
        apply elem_of_singleton in Hin. contradiction.
      * f_equal.
        replace ({[a]} ∪ ({[f]} ∪ seen)) with ({[f]} ∪ ({[a]} ∪ seen))
          by (apply set_eq; intros x; rewrite !elem_of_union; tauto).
        apply IH.
Qed.

Lemma flat_map_filter_nil {A B} (f : A -> list B) (p : A -> bool) l :
  (forall a, a ∈ l -> p a = false -> f a = []) ->
  flat_map f (List.filter p l) = flat_map f l.
Proof.
  induction l as [|a l IH]; intros H; [reflexivity|]. simpl.
  destruct (p a) eqn:E; simpl.
  - f_equal. apply IH. intros b Hb. apply H. right. exact Hb.
  - rewrite (H a) by (left || exact E). simpl. apply IH.
    intros b Hb. apply H. right. exact Hb.
Qed.

Lemma processBatch_first_occurrences (h : Host) (files : list string) :
  forall m,
    fst (processBatch h files m) = flat_map (contribution h m) (dedup files)
    /\ todos (snd (processBatch h files m))
       = (todos m ++ flat_map (contribution h m) (dedup files))%list.
Proof.
  assert (H : forall m, fst (processBatch h files m)
                        = flat_map (contribution h m) (dedup files)).
  { induction files as [|f files IH]; intros m; [reflexivity|].
    rewrite processBatch_cons. cbn [fst].
    rewrite (proj1 (processFile_found h f m)), IH.
    unfold dedup at 2. simpl.
    destruct (decide (f ∈ (∅ : gset string))) as [Hin|_];
      [exfalso; revert Hin; apply not_elem_of_empty|].
    simpl. f_equal. rewrite dedupFrom_filter. fold (dedup files).
    set (m1 := fst (processFile h f m)).
    rewrite <- (flat_map_filter_nil (contribution h m1)
                  (fun g => negb (String.eqb g f))).
    - apply flat_map_ext_elem. intros g Hg.
      apply list_elem_of_In, filter_In in Hg as [_ Hg].
      apply negb_true_iff, String.eqb_neq in Hg.
      apply processFile_contribution_other. exact Hg.
    - intros g _ Hg. apply negb_false_iff, String.eqb_eq in Hg. subst g.
      apply processFile_settled. }
  intros m. split; [apply H|]. rewrite processBatch_found, H. reflexivity.
Qed.

Lemma dedup_NoDup l : NoDup l -> dedup l = l.
Proof.
  unfold dedup. assert (H : forall seen, NoDup l ->
    (forall x, x ∈ l -> x ∉ seen) -> dedupFrom seen l = l).
  { induction l as [|a l IH]; intros seen Hnd Hs; [reflexivity|]. simpl.
    apply NoDup_cons in Hnd as [Ha Hnd].
    destruct (decide (a ∈ seen)) as [Hin|_];
      [exfalso; exact (Hs a ltac:(left) Hin)|].
    f_equal. apply IH; [exact Hnd|]. intros x Hx Hin.
    apply elem_of_union in Hin as [Hin|Hin].
    - apply elem_of_singleton in Hin. subst x. contradiction.
    - exact (Hs x ltac:(right; exact Hx) Hin). }
  intros Hnd. apply H; [exact Hnd|]. intros x _. apply not_elem_of_empty.
Qed.

(** The scan and its background call, put together: one pass of the loop
    body over the enumeration, then the closing status. *)
Lemma scan_as_one_batch h m found :
  workspaceFolders h = true ->
  findFiles h = Some found ->
  runBackground h (initializeStream h m)
  = let files := dedup found in
    let r := snd (processBatch h files
                    (updateStatus (withTotalFiles (length files))
                                  (beginScan m))) in
    if batchSize <? length files then
      updateStatus (fun s => withCurrentFile None (withState complete s))
                   (setIsProcessing false r)
    else updateStatus (withState complete) r.
Proof.
  intros Hws Hfind. unfold initializeStream. rewrite Hws, Hfind.
  cbn [negb]. rewrite scanFiles_unfold. cbv zeta.
  set (files := dedup found).
  set (m1 := updateStatus (withTotalFiles (length files)) (beginScan m)).
  destruct (Nat.ltb_spec batchSize (length files)) as [Hlt|Hge].
  - unfold runBackground, processRemainingFiles. cbn [background manager].
    rewrite remainingLoop_processBatch by lia. rewrite skipn_O.
    assert (E : processBatch h files m1
                = processBatch h (firstn batchSize files
                                  ++ skipn batchSize files)%list m1)
      by (rewrite firstn_skipn; reflexivity).
    rewrite E, processBatch_app. reflexivity.
  - unfold runBackground. cbn [background manager].
    rewrite (firstn_enough files) by exact Hge. reflexivity.
Qed.

Lemma contribution_unprocessed h m f :
  f ∉ processedFiles m -> contribution h m f = fileResult h m f.
Proof.
  intros H. unfold contribution.
  destruct (decide (f ∈ processedFiles m)); [contradiction|reflexivity].
Qed.

Lemma scan_todos h m found :
  workspaceFolders h = true ->
  findFiles h = Some found ->
  todos (runBackground h (initializeStream h m))
  = flat_map (fileResult h m) (dedup found)
  /\ todoPattern (runBackground h (initializeStream h m)) = todoPattern m.
Proof.
  intros Hws Hfind. rewrite (scan_as_one_batch h m found Hws Hfind).
  cbv zeta. set (files := dedup found).
  set (m1 := updateStatus (withTotalFiles (length files)) (beginScan m)).
  destruct (processBatch_spec h files m1 (NoDup_dedup found))
    as (_ & Ht & _ & _ & _ & _ & Hp & _).
  { intros f _. apply not_elem_of_empty. }
  destruct (batchSize <? length files); split; assumption.
Qed.

(** What a scan leaves in the cache: every file it listed has nothing
    left to contribute while the host answers the same. *)
Lemma processFile_cached h f m :
  f ∉ processedFiles m -> fileResult h (fst (processFile h f m)) f = [].
Proof.
  intros Hf. unfold fileResult at 1. unfold readAndScan, shouldSkip.
  processFile_paths h f m; try contradiction.
  - unfold shouldSkip in Hskip. rewrite Hskip. reflexivity.
  - rewrite lookup_insert_eq. cbn [lastModified].
    rewrite Z.eqb_refl. reflexivity.
  - rewrite lookup_insert_eq. cbn [lastModified].
    rewrite Z.eqb_refl. reflexivity.
  - destruct (match fileCache m !! f with Some _ => _ | None => _ end);
      reflexivity.
  - reflexivity.
Qed.

Lemma processBatch_cached h files : forall m,
  NoDup files ->
  (forall f, f ∈ files -> f ∉ processedFiles m) ->
  forall g, g ∈ files -> fileResult h (snd (processBatch h files m)) g = [].
Proof.
  induction files as [|f files IH]; intros m Hnd Hnew g Hg; [inversion Hg|].
  apply NoDup_cons in Hnd as [Hf Hnd].
  rewrite processBatch_cons. cbn [snd].
  set (m1 := fst (processFile h f m)).
  apply elem_of_cons in Hg as [->|Hg].
  - destruct (processBatch_others h files f m1 Hf) as (Hc & _).
    rewrite (fileResult_ext h m1); [|exact Hc|apply processBatch_frame].
    apply processFile_cached. apply Hnew. left.
  - apply IH; [exact Hnd| |exact Hg]. intros x Hx Hin.
    assert (Hxf : x <> f) by (intros ->; contradiction).
    apply (processFile_others h f m x Hxf) in Hin.
    exact (Hnew x ltac:(right; exact Hx) Hin).
Qed.

Lemma processBatch_grouping h files : forall m g,
  NoDup files -> g ∈ files ->
  todosByFile (snd (processBatch h files m)) !! g
  = match contribution h m g with
    | [] => todosByFile m !! g
    | l => Some l
    end.
Proof.
  induction files as [|f files IH]; intros m g Hnd Hg; [inversion Hg|].
  apply NoDup_cons in Hnd as [Hf Hnd].
  rewrite processBatch_cons. cbn [snd].
  set (m1 := fst (processFile h f m)).
  apply elem_of_cons in Hg as [->|Hg].
  - destruct (processBatch_others h files f m1 Hf) as (_ & Hb & _).
    rewrite Hb. apply processFile_grouping.
  - assert (Hgf : g <> f) by (intros ->; contradiction).
    rewrite (IH m1 g Hnd Hg).
    unfold m1. rewrite (processFile_contribution_other h f m g Hgf).
    destruct (processFile_others h f m g Hgf) as (_ & Hb & _).
    rewrite Hb. reflexivity.
Qed.

Lemma file_fileResult h m g t : In t (fileResult h m g) -> file t = g.
Proof.
  unfold fileResult, readAndScan.
  destruct (statMtime h g); [|contradiction].
  destruct (shouldSkip m g z); [contradiction|].
  destruct (openTextDocument h g); [|contradiction].
  apply file_scanText.
Qed.

Lemma filter_all {A} (p : A -> bool) l :
  (forall a, In a l -> p a = true) -> List.filter p l = l.
Proof.
  induction l as [|a l IH]; intros H; [reflexivity|]. simpl.
  rewrite (H a) by (left; reflexivity). f_equal. apply IH.
  intros b Hb. apply H. right. exact Hb.
Qed.

Lemma filter_none {A} (p : A -> bool) l :
  (forall a, In a l -> p a = false) -> List.filter p l = [].
Proof.
  induction l as [|a l IH]; intros H; [reflexivity|]. simpl.
  rewrite (H a) by (left; reflexivity). apply IH.
  intros b Hb. apply H. right. exact Hb.
Qed.

Lemma filter_file_flat_map h m f : forall files,
  NoDup files ->
  List.filter (fun t => String.eqb (file t) f)
              (flat_map (fileResult h m) files)
  = if decide (f ∈ files) then fileResult h m f else [].
Proof.
  induction files as [|g files IH]; intros Hnd.
  - simpl. destruct (decide (f ∈ [])) as [H|_]; [inversion H|reflexivity].
  - apply NoDup_cons in Hnd as [Hg Hnd]. simpl.
    rewrite List.filter_app, (IH Hnd).
    destruct (decide (f = g)) as [->|Hne].
    + rewrite filter_all.
      * destruct (decide (g ∈ files)); [contradiction|].
        destruct (decide (g ∈ g :: files)) as [_|Hn];
          [apply app_nil_r|exfalso; apply Hn; left].
      * intros t Ht. apply String.eqb_eq. exact (file_fileResult _ _ _ _ Ht).
    + rewrite filter_none.
      * destruct (decide (f ∈ files)) as [Hin|Hout].
        -- destruct (decide (f ∈ g :: files)) as [_|Hn];
             [reflexivity|exfalso; apply Hn; right; exact Hin].
        -- destruct (decide (f ∈ g :: files)) as [Hin|_]; [|reflexivity].
           apply elem_of_cons in Hin as [Hin|Hin]; contradiction.
      * intros t Ht. apply String.eqb_neq.
        rewrite (file_fileResult _ _ _ _ Ht). congruence.
Qed.

Lemma scan_initial h m found :
  workspaceFolders h = true ->
  findFiles h = Some found ->
  initialBatch (initializeStream h m)
  = flat_map (fileResult h m) (firstn batchSize (dedup found)).
Proof.
  intros Hws Hfind. unfold initializeStream. rewrite Hws, Hfind.
  cbn [negb]. rewrite scanFiles_unfold. cbv zeta.
  set (files := dedup found).
  set (m1 := updateStatus (withTotalFiles (length files)) (beginScan m)).
  destruct (NoDup_split files batchSize (NoDup_dedup found)) as (Hnd & _).
  destruct (processBatch_spec h (firstn batchSize files) m1 Hnd)
    as (Hfst & _).
  { intros f _. apply not_elem_of_empty. }
  destruct (batchSize <? length files); exact Hfst.
Qed.

Lemma elem_of_firstn {A} (x : A) n l : x ∈ firstn n l -> x ∈ l.
Proof.
  intros H. rewrite <- (firstn_skipn n l). apply elem_of_app. left. exact H.
Qed.

(** X1: a batch extracts each file once, however often the list names
    it. What [processBatch] returns, and appends to the flat list, is
    the contribution of the distinct paths in order of first occurrence
    (nothing for a path the scan has already marked processed); the
    same batch run again returns nothing and leaves the flat list as it
    is. *)
Theorem listed_twice_extracted_once (h : Host) (files : list string)
  (m : TodoManager) :
  fst (processBatch h files m) = flat_map (contribution h m) (dedup files)
  /\ todos (snd (processBatch h files m))
     = (todos m ++ flat_map (contribution h m) (dedup files))%list
  /\ fst (processBatch h files (snd (processBatch h files m))) = []
  /\ todos (snd (processBatch h files (snd (processBatch h files m))))
     = todos (snd (processBatch h files m)).
Proof.
  destruct (processBatch_first_occurrences h files m) as [H1 H2].
  assert (H3 : fst (processBatch h files (snd (processBatch h files m))) = []).
  { rewrite (proj1 (processBatch_first_occurrences h files _)).
    apply flat_map_nil. intros g Hg. apply processBatch_settled.
    apply elem_of_dedup. exact Hg. }
  repeat split; try assumption.
  rewrite processBatch_found, H3, app_nil_r. reflexivity.
Qed.

(** X2: [processBatch] advances [filesProcessed] by the number of paths
    it is given, skipped, failing and repeated ones included, and leaves
    [totalFiles], the state and the processing flag alone. *)
Theorem batch_counts_every_file (h : Host) (files : list string)
  (m : TodoManager) :
  filesProcessed (getStatus (snd (processBatch h files m)))
  = filesProcessed (getStatus m) + length files
  /\ totalFiles (getStatus (snd (processBatch h files m)))
     = totalFiles (getStatus m)
  /\ state (getStatus (snd (processBatch h files m))) = state (getStatus m)
  /\ isStillProcessing (snd (processBatch h files m)) = isStillProcessing m.
Proof.
  destruct (processBatch_frame h files m) as (_ & H2 & H3 & H4 & H5).
  unfold getStatus, isStillProcessing. auto.
Qed.

(** X3: in an open workspace, once a scan and its background call have
    run, the state is [complete], but [isStillProcessing] is false only
    if more than [batchSize] distinct files were found: with at most 20
    files nothing resets the flag that [initializeStream] set. When the
    enumeration throws, the scan returns nothing, the state is
    [complete] and the flag stays set as well. *)
Theorem scan_end_flags (h : Host) (m : TodoManager)
  (Hws : workspaceFolders h = true) :
  (forall found, findFiles h = Some found ->
     state (getStatus (runBackground h (initializeStream h m))) = complete
     /\ isStillProcessing (runBackground h (initializeStream h m))
        = (length (dedup found) <=? batchSize))
  /\ (findFiles h = None ->
        initialBatch (initializeStream h m) = []
        /\ background (initializeStream h m) = None
        /\ todos (manager (initializeStream h m)) = []
        /\ state (getStatus (manager (initializeStream h m))) = complete
        /\ isStillProcessing (manager (initializeStream h m)) = true).
Proof.
  split.
  - intros found Hfind. rewrite (scan_as_one_batch h m found Hws Hfind).
    cbv zeta. set (files := dedup found).
    set (m1 := updateStatus (withTotalFiles (length files)) (beginScan m)).
    destruct (processBatch_frame h files m1) as (_ & Hp & _).
    destruct (Nat.ltb_spec batchSize (length files)) as [Hlt|Hge].
    + split; [reflexivity|]. symmetry. apply Nat.leb_gt. exact Hlt.
    + split; [reflexivity|]. unfold isStillProcessing. cbn.
      rewrite Hp. symmetry. apply Nat.leb_le. exact Hge.
  - intros Hfind. unfold initializeStream. rewrite Hws, Hfind.
    repeat split; reflexivity.
Qed.

Lemma scan_end_flags_witness :
  isStillProcessing (runBackground Scenario.small
                       (initializeStream Scenario.small
                          (getInstance Scenario.small None))) = true
  /\ isStillProcessing (runBackground Scenario.large
                          (initializeStream Scenario.large
                             (getInstance Scenario.large None))) = false.
Proof.
  split.
  - destruct (scan_end_flags Scenario.small (getInstance Scenario.small None)
                eq_refl) as [H _].
    destruct (H _ eq_refl) as [_ ->]. vm_compute. reflexivity.
  - destruct (scan_end_flags Scenario.large (getInstance Scenario.large None)
                eq_refl) as [H _].
    destruct (H _ eq_refl) as [_ ->]. vm_compute. reflexivity.
Defined.

(** X4: a second [initializeStream] over an unchanged workspace
    returns an empty first batch and ends with an empty flat list: the
    first scan left the files it read in the cache, the second one
    empties the list and then skips them. The per-file grouping stays
    as the first scan left it. *)
Theorem rescan_finds_nothing (h : Host) (m : TodoManager)
  (found : list string)
  (Hws : workspaceFolders h = true)
  (Hfind : findFiles h = Some found) :
  initialBatch
    (initializeStream h (runBackground h (initializeStream h m))) = []
  /\ todos (runBackground h
              (initializeStream h (runBackground h (initializeStream h m))))
     = []
  /\ forall f,
       getTodosInFile
         (runBackground h
            (initializeStream h (runBackground h (initializeStream h m)))) f
       = getTodosInFile (runBackground h (initializeStream h m)) f.
Proof.
  set (m1 := runBackground h (initializeStream h m)).
  assert (Hnil : forall g, g ∈ dedup found -> fileResult h m1 g = []).
  { intros g Hg. unfold m1. rewrite (scan_as_one_batch h m found Hws Hfind).
    cbv zeta.
    set (r := snd (processBatch h (dedup found) _)).
    assert (Hr : fileResult h r g = []).
    { apply processBatch_cached; [apply NoDup_dedup| |exact Hg].
      intros f _. apply not_elem_of_empty. }
    destruct (batchSize <? length (dedup found)); exact Hr. }
  split; [|split].
  - rewrite (scan_initial h m1 found Hws Hfind). apply flat_map_nil.
    intros g Hg. apply Hnil. exact (elem_of_firstn _ _ _ Hg).
  - rewrite (proj1 (scan_todos h m1 found Hws Hfind)).
    apply flat_map_nil. exact Hnil.
  - intros f. unfold getTodosInFile.
    rewrite (scan_as_one_batch h m1 found Hws Hfind). cbv zeta.
    set (m2 := updateStatus _ (beginScan m1)).
    assert (Hb : todosByFile (snd (processBatch h (dedup found) m2)) !! f
                 = todosByFile m1 !! f).
    { destruct (decide (f ∈ dedup found)) as [Hin|Hout].
      - rewrite (processBatch_grouping h _ m2 f (NoDup_dedup found) Hin).
        rewrite contribution_unprocessed by apply not_elem_of_empty.
        change (fileResult h m2 f) with (fileResult h m1 f).
        rewrite (Hnil f Hin). reflexivity.
      - rewrite (proj1 (proj2 (processBatch_others h _ f m2 Hout))).
        reflexivity. }
    destruct (batchSize <? length (dedup found)); cbn; rewrite Hb;
      reflexivity.
Qed.

Lemma rescan_finds_nothing_witness :
  getTotalCount Scenario.scanned = 3
  /\ todos (runBackground Scenario.small
              (initializeStream Scenario.small Scenario.scanned)) = [].
Proof.
  split; [vm_compute; reflexivity|].
  destruct (rescan_finds_nothing Scenario.small
              (getInstance Scenario.small None)
              ["/w/a.ts"; "/w/b.ts"] eq_refl eq_refl) as (_ & H & _).
  exact H.
Defined.

(** X5: [refreshTodos], once its background call has run, leaves as
    flat list the extraction, with the manager's pattern, of every
    distinct file of the enumeration in order, whatever the store held
    before: two managers with the same pattern end with the same
    list. *)
Theorem refresh_rebuilds (h : Host) (m : TodoManager) (found : list string)
  (Hws : workspaceFolders h = true)
  (Hfind : findFiles h = Some found) :
  todos (runBackground h (refreshTodos h m))
  = flat_map (freshResult h (todoPattern m)) (dedup found)
  /\ forall m', todoPattern m' = todoPattern m ->
       todos (runBackground h (refreshTodos h m'))
       = todos (runBackground h (refreshTodos h m)).
Proof.
  assert (H : forall m0, todos (runBackground h (refreshTodos h m0))
                = flat_map (freshResult h (todoPattern m0)) (dedup found)).
  { intros m0. unfold refreshTodos.
    rewrite (proj1 (scan_todos h (clearForRefresh m0) found Hws Hfind)).
    apply flat_map_ext. intros f. unfold fileResult, freshResult, shouldSkip.
    cbn [fileCache clearForRefresh setFileCache]. rewrite lookup_empty.
    reflexivity. }
  split; [apply H|]. intros m' Hp. rewrite !H, Hp. reflexivity.
Qed.

Lemma refresh_rebuilds_witness :
  map text (todos (runBackground Scenario.small
                     (refreshTodos Scenario.small Scenario.scanned)))
  = ["[TODO] one"; "[FIXME] two"; "[HACK] three"].
Proof.
  rewrite (proj1 (refresh_rebuilds Scenario.small Scenario.scanned
                    ["/w/a.ts"; "/w/b.ts"] eq_refl eq_refl)).
  vm_compute. reflexivity.
Defined.

(** X6: after a scan by a manager whose grouping was empty (a new or
    a disposed one), [getTodosInFile f] is the part of the flat list
    whose [file] is [f], in order, and [getTodoCountInFile f] is its
    length. *)
Theorem first_scan_views_agree (h : Host) (m : TodoManager)
  (found : list string)
  (Hws : workspaceFolders h = true)
  (Hfind : findFiles h = Some found)
  (Hnew : todosByFile m = ∅) :
  forall f,
    getTodosInFile (runBackground h (initializeStream h m)) f
    = List.filter (fun t => String.eqb (file t) f)
                  (todos (runBackground h (initializeStream h m)))
    /\ getTodoCountInFile (runBackground h (initializeStream h m)) f
       = length (List.filter (fun t => String.eqb (file t) f)
                             (todos (runBackground h (initializeStream h m)))).
Proof.
  intros f.
  assert (Hget : getTodosInFile (runBackground h (initializeStream h m)) f
                 = List.filter (fun t => String.eqb (file t) f)
                     (todos (runBackground h (initializeStream h m)))).
  { rewrite (proj1 (scan_todos h m found Hws Hfind)).
    rewrite (filter_file_flat_map h m f _ (NoDup_dedup found)).
    unfold getTodosInFile.
    rewrite (scan_as_one_batch h m found Hws Hfind). cbv zeta.
    set (m1 := updateStatus _ (beginScan m)).
    assert (Hb : todosByFile (snd (processBatch h (dedup found) m1)) !! f
                 = if decide (f ∈ dedup found)
                   then match fileResult h m f with
                        | [] => None
                        | l => Some l
                        end
                   else None).
    { destruct (decide (f ∈ dedup found)) as [Hin|Hout].
      - rewrite (processBatch_grouping h _ m1 f (NoDup_dedup found) Hin).
        rewrite contribution_unprocessed by apply not_elem_of_empty.
        change (fileResult h m1 f) with (fileResult h m f).
        change (todosByFile m1) with (todosByFile m).
        rewrite Hnew, lookup_empty. reflexivity.
      - rewrite (proj1 (proj2 (processBatch_others h _ f m1 Hout))).
        change (todosByFile m1) with (todosByFile m).
        rewrite Hnew, lookup_empty. reflexivity. }
    destruct (batchSize <? length (dedup found)); cbn; rewrite Hb;
      destruct (decide (f ∈ dedup found)); try reflexivity;
      destruct (fileResult h m f); reflexivity. }
  split; [exact Hget|].
  rewrite <- Hget. unfold getTodoCountInFile, getTodosInFile.
  destruct (todosByFile _ !! f); reflexivity.
Qed.

Lemma first_scan_views_agree_witness :
  getTodoCountInFile Scenario.scanned "/w/a.ts" = 3
  /\ getTodoCountInFile Scenario.scanned "/w/b.ts" = 0.
Proof.
  unfold Scenario.scanned. split.
  - rewrite (proj2 (first_scan_views_agree Scenario.small
                      (getInstance Scenario.small None)
                      ["/w/a.ts"; "/w/b.ts"] eq_refl eq_refl eq_refl
                      "/w/a.ts")).
    vm_compute. reflexivity.
  - rewrite (proj2 (first_scan_views_agree Scenario.small
                      (getInstance Scenario.small None)
                      ["/w/a.ts"; "/w/b.ts"] eq_refl eq_refl eq_refl
                      "/w/b.ts")).
    vm_compute. reflexivity.
Defined.

Lemma processFile_failed h f m :
  statMtime h f = None
  \/ (exists mtime, statMtime h f = Some mtime
                    /\ shouldSkip m f mtime = false
                    /\ openTextDocument h f = None) ->
  foundBy (snd (processFile h f m)) = []
  /\ todos (fst (processFile h f m)) = todos m
  /\ processedFiles (fst (processFile h f m)) = processedFiles m
  /\ fileCache (fst (processFile h f m)) = fileCache m
  /\ todosByFile (fst (processFile h f m)) = todosByFile m.
Proof.
  intros Hfail.
  processFile_paths h f m; try (repeat split; reflexivity);
    exfalso; destruct Hfail as [H|(mt & Hs & Hk & Ho)]; congruence.
Qed.

(** X7: a file whose [stat] throws, or that is not skipped and cannot
    be opened, costs the batch nothing else: the batch returns and
    stores what it would without that path, and the file is neither
    marked processed nor is its cache entry touched, so that a later
    batch tries it again. *)
Theorem failing_file_is_isolated (h : Host) (m : TodoManager)
  (l1 l2 : list string) (f : string)
  (Hnd : NoDup (l1 ++ f :: l2)%list)
  (Hnew : forall g, g ∈ (l1 ++ f :: l2)%list -> g ∉ processedFiles m)
  (Hfail : statMtime h f = None
           \/ (exists mtime, statMtime h f = Some mtime
                             /\ shouldSkip m f mtime = false
                             /\ openTextDocument h f = None)) :
  fst (processBatch h (l1 ++ f :: l2)%list m)
  = fst (processBatch h (l1 ++ l2)%list m)
  /\ todos (snd (processBatch h (l1 ++ f :: l2)%list m))
     = todos (snd (processBatch h (l1 ++ l2)%list m))
  /\ (f ∉ processedFiles (snd (processBatch h (l1 ++ f :: l2)%list m)))
  /\ (fileCache (snd (processBatch h (l1 ++ f :: l2)%list m)) !! f)
     = (fileCache m !! f).
Proof.
  assert (Hf1 : (f ∉ l1) /\ (f ∉ l2) /\ NoDup (l1 ++ l2)%list).
  { apply NoDup_app in Hnd as (H1 & H2 & H3).
    apply NoDup_cons in H3 as [H3 H4].
    split; [|split; [exact H3|]].
    - intros Hin. apply (H2 f Hin). left.
    - apply NoDup_app. split; [exact H1|]. split; [|exact H4].
      intros x Hx Hx'. apply (H2 x Hx). right. exact Hx'. }
  destruct Hf1 as (Hf1 & Hf2 & Hnd').
  assert (Hres : fileResult h m f = []).
  { unfold fileResult, readAndScan.
    destruct Hfail as [Hs|(mt & Hs & Hk & Ho)]; rewrite Hs;
      [reflexivity|]. rewrite Hk, Ho. reflexivity. }
  assert (Hfst : fst (processBatch h (l1 ++ f :: l2)%list m)
                 = fst (processBatch h (l1 ++ l2)%list m)).
  { destruct (processBatch_spec h _ m Hnd Hnew) as (-> & _).
    destruct (processBatch_spec h _ m Hnd') as (-> & _).
    { intros g Hg. apply Hnew. apply elem_of_app in Hg as [Hg|Hg];
        apply elem_of_app; [left|right; right]; exact Hg. }
    rewrite !flat_map_app. simpl. rewrite Hres. reflexivity. }
  split; [exact Hfst|]. split; [rewrite !processBatch_found, Hfst; reflexivity|].
  rewrite processBatch_app. cbn [snd]. rewrite processBatch_cons. cbn [snd].
  set (s1 := snd (processBatch h l1 m)).
  destruct (processBatch_others h l1 f m Hf1) as (Hc1 & _ & Hp1 & _).
  fold s1 in Hc1, Hp1.
  destruct (processFile_failed h f s1) as (_ & _ & Hp & Hc & _).
  { destruct Hfail as [H|(mt & Hs & Hk & Ho)]; [left; exact H|right].
    exists mt. split; [exact Hs|]. split; [|exact Ho].
    unfold shouldSkip in *. rewrite Hc1. exact Hk. }
  destruct (processBatch_others h l2 f (fst (processFile h f s1)) Hf2)
    as (Hc2 & _ & Hp2 & _).
  split.
  - rewrite Hp2, Hp, Hp1. apply Hnew, elem_of_app. right. left.
  - rewrite Hc2, Hc, Hc1. reflexivity.
Qed.

Lemma failing_file_is_isolated_witness :
  map text (fst (processBatch withMissing
                   ["/w/a.ts"; "/w/gone.ts"; "/w/b.ts"]
                   (getInstance withMissing None)))
  = ["[TODO] one"; "[FIXME] two"; "[HACK] three"].
Proof.
  transitivity (map text (fst (processBatch withMissing
                                 (["/w/a.ts"] ++ ["/w/b.ts"])%list
                                 (getInstance withMissing None)))).
  - apply (f_equal (map text)).
    exact (proj1 (failing_file_is_isolated withMissing
                    (getInstance withMissing None)
                    ["/w/a.ts"] ["/w/b.ts"] "/w/gone.ts"
                    ltac:(compute_done)
                    ltac:(intros g _; apply not_elem_of_empty)
                    ltac:(left; reflexivity))).
  - vm_compute. reflexivity.
Defined.

(** X8: after the watcher's delete event for a file, or its change
    event when the flat list holds no annotation of the file (so that
    no refresh starts), the next pass of [processBatch] over the file
    reads and scans it, whatever the cache held; the cache entries and
    processed marks of the other files are untouched. *)
Theorem invalidated_file_is_read_again (h : Host) (m : TodoManager)
  (f : string) (mtime : Z) (content : string)
  (Hstat : statMtime h f = Some mtime)
  (Hopen : openTextDocument h f = Some content) :
  snd (processFile h f (onDidDelete f m))
  = Scanned (scanText h (todoPattern m) f content)
  /\ (existsb (fun t => String.eqb (file t) f) (todos m) = false ->
      background (onDidChange h f m) = None
      /\ todos (manager (onDidChange h f m)) = todos m
      /\ snd (processFile h f (manager (onDidChange h f m)))
         = Scanned (scanText h (todoPattern m) f content))
  /\ (forall g, g <> f ->
        (fileCache (onDidDelete f m) !! g) = (fileCache m !! g)
        /\ (g ∈ processedFiles (onDidDelete f m) <-> g ∈ processedFiles m)).
Proof.
  assert (Hread : forall m', f ∉ processedFiles m' ->
            fileCache m' !! f = None -> todoPattern m' = todoPattern m ->
            snd (processFile h f m')
            = Scanned (scanText h (todoPattern m) f content)).
  { intros m' Hp Hc Hpat. unfold processFile.
    destruct (decide (f ∈ processedFiles m')); [contradiction|].
    rewrite Hstat. unfold shouldSkip.
    cbn [fileCache todoPattern updateStatus setStatus].
    rewrite Hc, Hopen, Hpat.
    destruct (scanText h (todoPattern m) f content); reflexivity. }
  split; [|split].
  - apply Hread; [|apply lookup_delete_eq|reflexivity].
    cbn. rewrite elem_of_difference, elem_of_singleton. tauto.
  - intros Hnone. unfold onDidChange.
    cbn [todos setProcessedFiles setFileCache]. rewrite Hnone.
    split; [reflexivity|]. split; [reflexivity|].
    apply Hread; [|apply lookup_delete_eq|reflexivity].
    cbn. rewrite elem_of_difference, elem_of_singleton. tauto.
  - intros g Hg. split.
    + cbn. apply lookup_delete_ne. congruence.
    + cbn. rewrite elem_of_difference, elem_of_singleton. tauto.
Qed.

Lemma invalidated_file_is_read_again_witness :
  snd (processFile Scenario.small "/w/a.ts"
                   (onDidDelete "/w/a.ts" Scenario.scanned))
  = Scanned (scanText Scenario.small (todoPattern Scenario.scanned)
                      "/w/a.ts" Scenario.threeTodos).
Proof.
  destruct (invalidated_file_is_read_again Scenario.small Scenario.scanned
              "/w/a.ts" 100%Z Scenario.threeTodos eq_refl eq_refl)
    as (H & _).
  exact H.
Defined.

Lemma dedupFrom_sublist l : forall seen, sublist (dedupFrom seen l) l.
Proof.
  induction l as [|a l IH]; intros seen; simpl; [constructor|].
  destruct (decide (a ∈ seen)).
  - apply sublist_cons. apply IH.
  - apply sublist_skip. apply IH.
Qed.

(** X9: the duplicate removal of [initializeStream] (a [Set] of the
    paths, iterated in insertion order) keeps one copy of each path, the
    first: the result has no duplicates and the same elements, is a
    sub-list of the enumeration with the same head, and removing
    duplicates again changes nothing. *)
Theorem dedup_enumeration (l : list string) :
  NoDup (dedup l)
  /\ (forall x, x ∈ dedup l <-> x ∈ l)
  /\ sublist (dedup l) l
  /\ hd_error (dedup l) = hd_error l
  /\ dedup (dedup l) = dedup l.
Proof.
  split; [apply NoDup_dedup|]. split; [apply elem_of_dedup|].
  split; [apply dedupFrom_sublist|]. split.
  - destruct l as [|a l]; [reflexivity|]. unfold dedup. simpl.
    destruct (decide (a ∈ (∅ : gset string))) as [H|_]; [|reflexivity].
    exfalso. revert H. apply not_elem_of_empty.
  - apply dedup_NoDup, NoDup_dedup.
Qed.

(** X10: for any start index, negative ones included, [getNextBatch]
    returns at most [batchSize] annotations, and they are a sub-list of
    the flat list; when the start index plus [batchSize] is at or below
    minus the length of the flat list, the result is empty. *)
Theorem getNextBatch_bounded (m : TodoManager) (startIndex : Z) :
  length (getNextBatch m startIndex) <= batchSize
  /\ sublist (getNextBatch m startIndex) (todos m)
  /\ ((startIndex + Z.of_nat batchSize <= - Z.of_nat (length (todos m)))%Z ->
      getNextBatch m startIndex = []).
Proof.
  unfold getNextBatch, Js.slice, Js.relIndex, batchSize.
  set (len := Z.of_nat (length (todos m))).
  assert (Hlen : (0 <= len)%Z) by (unfold len; lia).
  split; [|split].
  - rewrite length_firstn.
    destruct (Z.ltb_spec startIndex 0),
             (Z.ltb_spec (Z.min (startIndex + Z.of_nat 20) len) 0); lia.
  - etransitivity; [apply sublist_take|apply sublist_drop].
  - intros Hfar.
    destruct (Z.ltb_spec startIndex 0); [|lia].
    destruct (Z.ltb_spec (Z.min (startIndex + Z.of_nat 20) len) 0);
      match goal with
      | |- firstn ?n _ = _ => replace n with 0 by lia
      end; reflexivity.
Qed.


Lemma getNextBatch_bounded_witness :
  getNextBatch Scenario.scanned (-30) = [].
Proof.
  destruct (getNextBatch_bounded Scenario.scanned (-30)%Z) as (_ & _ & H).
  apply H. vm_compute. discriminate.
Defined.

End BatchFacts.

(** ** The panel: loading and navigation *)

Section PanelFacts.
Import Vscode Manager Panel Navigation Workspaces.

Lemma firstn_add {A} (l : list A) n k :
  firstn (n + k) l = (firstn n l ++ firstn k (skipn n l))%list.
Proof.
  revert l. induction n as [|n IH]; intros l; [reflexivity|].
  destruct l as [|a l]; simpl.
  - rewrite firstn_nil. reflexivity.
  - rewrite IH. reflexivity.
Qed.

(** X11: when the panel holds a prefix of the manager's flat list, is
    not loading and has not loaded everything, [_loadMoreTodos] extends
    its list to the prefix that is [batchSize] longer; it sets
    [_loadedAllTodos] exactly when the manager holds nothing beyond
    what the panel has, and keeps the current index and the
    manager. *)
Theorem loadMore_extends_prefix (p : TodoPanelProvider)
  (Hprefix : _todos p
             = firstn (length (_todos p)) (todos (_todoManager p)))
  (Hidle : _loading p = false)
  (Hmore : _loadedAllTodos p = false) :
  _todos (_loadMoreTodos p)
  = firstn (length (_todos p) + batchSize) (todos (_todoManager p))
  /\ (_loadedAllTodos (_loadMoreTodos p) = true
      <-> length (todos (_todoManager p)) <= length (_todos p))
  /\ _currentTodoIndex (_loadMoreTodos p) = _currentTodoIndex p
  /\ _todoManager (_loadMoreTodos p) = _todoManager p.
Proof.
  unfold _loadMoreTodos. rewrite Hidle, Hmore. cbn [orb].
  rewrite getNextBatch_nat.
  set (n := length (_todos p)) in *. set (l := todos (_todoManager p)) in *.
  assert (Hn : n <= length l).
  { unfold n at 1. rewrite Hprefix, length_firstn. lia. }
  rewrite firstn_add, <- Hprefix.
  destruct (firstn batchSize (skipn n l)) as [|t ts] eqn:E; cbn.
  - rewrite app_nil_r. repeat split; try reflexivity.
    intros _. apply (f_equal (@length _)) in E.
    rewrite length_firstn, length_skipn in E. unfold batchSize in E.
    cbn [length] in E. lia.
  - repeat split; try reflexivity.
    + discriminate.
    + intros Hle. exfalso. rewrite skipn_all2 in E by lia.
      rewrite firstn_nil in E. discriminate.
Qed.

Lemma loadMore_extends_prefix_witness :
  _todos (_loadMoreTodos
            (mkPanel [] 0 false false Scenario.scanned))
  = firstn (0 + batchSize) (todos Scenario.scanned).
Proof.
  apply (loadMore_extends_prefix (mkPanel [] 0 false false Scenario.scanned));
    reflexivity.
Defined.

(** X12: when the first batch holds between 1 and 19 annotations,
    [_loadInitialTodos] shows them and sets [_loadedAllTodos]; from then
    on [_loadMoreTodos] does nothing, whatever the manager's flat list
    has become (what the background call finds is never fetched), and
    [next] only moves the index. *)
Theorem short_first_batch_ends_loading (h : Host) (p : TodoPanelProvider)
  (t : Todo) (ts : list Todo)
  (Hfirst : initialBatch (initializeStream h (_todoManager p)) = t :: ts)
  (Hshort : length (t :: ts) < 20) :
  _todos (panel (_loadInitialTodos h p)) = t :: ts
  /\ _loadedAllTodos (panel (_loadInitialTodos h p)) = true
  /\ forall m',
       _loadMoreTodos (withManager m' (panel (_loadInitialTodos h p)))
       = withManager m' (panel (_loadInitialTodos h p))
       /\ handleNext (withManager m' (panel (_loadInitialTodos h p)))
          = (if (0 <? Z.of_nat (length ts))%Z
             then withIndex 1 (withManager m' (panel (_loadInitialTodos h p)))
             else withManager m' (panel (_loadInitialTodos h p))).
Proof.
  unfold _loadInitialTodos. rewrite Hfirst. cbn [panel _todos _loadedAllTodos].
  assert (Hlt : (length (t :: ts) <? 20) = true) by (apply Nat.ltb_lt; exact Hshort).
  rewrite Hlt. split; [reflexivity|]. split; [reflexivity|].
  intros m'. split; [reflexivity|].
  unfold handleNext, withManager, withIndex. cbn [_todos _currentTodoIndex length].
  destruct ts as [|t2 ts]; [reflexivity|].
  cbn [length] in *.
  destruct (Z.ltb_spec (Z.of_nat 0) (Z.of_nat (S (S (length ts))) - 1)); [|lia].
  destruct (Z.ltb_spec 0 (Z.of_nat (S (length ts)))); [|lia].
  destruct (Z.leb_spec (Z.of_nat (S (S (length ts))) - 5) (Z.of_nat (0 + 1)));
    reflexivity.
Qed.

Lemma short_first_batch_ends_loading_witness :
  getTotalCount
    (runBackground sparse (initializeStream sparse (getInstance sparse None)))
  = 2
  /\ _loadedAllTodos (panel (_loadInitialTodos sparse sparsePanel)) = true.
Proof.
  split; [vm_compute; reflexivity|].
  apply (short_first_batch_ends_loading sparse sparsePanel
           (mkTodo "[TODO] task 00" "/w/f00.ts" 0 0
              (mkRange (mkPosition 0 0) (mkPosition 0 16)) None) []).
  - vm_compute. reflexivity.
  - vm_compute. lia.
Defined.

Lemma loadMore_appends p :
  (exists more, _todos (_loadMoreTodos p) = (_todos p ++ more)%list)
  /\ _currentTodoIndex (_loadMoreTodos p) = _currentTodoIndex p.
Proof.
  unfold _loadMoreTodos.
  destruct (_loadedAllTodos p || _loading p).
  - split; [exists []; rewrite app_nil_r|]; reflexivity.
  - destruct (getNextBatch _ _) as [|t ts]; cbn.
    + split; [exists []; rewrite app_nil_r|]; reflexivity.
    + split; [eexists|]; reflexivity.
Qed.

Lemma handleNext_moved p :
  _currentTodoIndex p + 1 < length (_todos p) ->
  _currentTodoIndex (handleNext p) = _currentTodoIndex p + 1
  /\ exists more, _todos (handleNext p) = (_todos p ++ more)%list.
Proof.
  intros H. unfold handleNext.
  destruct (Z.ltb_spec (Z.of_nat (_currentTodoIndex p))
                       (Z.of_nat (length (_todos p)) - 1)); [|lia].
  cbv zeta.
  match goal with
  | |- context [Z.leb ?a ?b] => destruct (Z.leb a b)
  end.
  - destruct (loadMore_appends (withIndex (_currentTodoIndex p + 1) p))
      as [Hm Hi].
    split; [exact Hi|exact Hm].
  - split; [reflexivity|]. exists []. rewrite app_nil_r. reflexivity.
Qed.

Lemma handleNext_last p :
  length (_todos p) <= _currentTodoIndex p + 1 -> handleNext p = p.
Proof.
  intros H. unfold handleNext.
  destruct (Z.ltb_spec (Z.of_nat (_currentTodoIndex p))
                       (Z.of_nat (length (_todos p)) - 1)); [lia|].
  reflexivity.
Qed.

(** X13: [next] and [previous] keep the current index inside the
    panel's list; [next] only ever appends to the list and [previous]
    leaves it alone; [next] on the last and [previous] on the first
    annotation change nothing, and elsewhere each undoes the move of
    the other. *)
Theorem navigation_stays_in_range (p : TodoPanelProvider)
  (Hin : _currentTodoIndex p < length (_todos p)) :
  _currentTodoIndex (handleNext p) < length (_todos (handleNext p))
  /\ _currentTodoIndex (handlePrevious p) < length (_todos (handlePrevious p))
  /\ (exists more, _todos (handleNext p) = (_todos p ++ more)%list)
  /\ _todos (handlePrevious p) = _todos p
  /\ (length (_todos p) = _currentTodoIndex p + 1 -> handleNext p = p)
  /\ (_currentTodoIndex p = 0 -> handlePrevious p = p)
  /\ (_currentTodoIndex p + 1 < length (_todos p) ->
      _currentTodoIndex (handlePrevious (handleNext p)) = _currentTodoIndex p)
  /\ (0 < _currentTodoIndex p ->
      _currentTodoIndex (handleNext (handlePrevious p)) = _currentTodoIndex p).
Proof.
  assert (Hprev : _todos (handlePrevious p) = _todos p
                  /\ _currentTodoIndex (handlePrevious p)
                     = _currentTodoIndex p - 1).
  { unfold handlePrevious.
    destruct (Nat.ltb_spec 0 (_currentTodoIndex p)); cbn; split;
      try reflexivity; lia. }
  destruct Hprev as [Hpt Hpi].
  destruct (le_lt_dec (length (_todos p)) (_currentTodoIndex p + 1))
    as [Hlast|Hmid].
  - rewrite (handleNext_last p Hlast).
    repeat split; try lia; try assumption.
    + rewrite Hpt, Hpi. lia.
    + exists []. rewrite app_nil_r. reflexivity.
    + intros H0. unfold handlePrevious. rewrite H0. reflexivity.
    + intros Hpos.
      destruct (handleNext_moved (handlePrevious p)) as [Hi _];
        [rewrite Hpt, Hpi; lia|].
      rewrite Hi, Hpi. lia.
  - destruct (handleNext_moved p Hmid) as [Hi [more Hm]].
    repeat split; try assumption.
    + rewrite Hi, Hm, length_app. lia.
    + rewrite Hpt, Hpi. lia.
    + exists more. exact Hm.
    + lia.
    + intros H0. unfold handlePrevious. rewrite H0. reflexivity.
    + intros _. unfold handlePrevious. rewrite Hi.
      destruct (Nat.ltb_spec 0 (_currentTodoIndex p + 1)); [|lia].
      cbn. lia.
    + intros Hpos.
      destruct (handleNext_moved (handlePrevious p)) as [Hi' _];
        [rewrite Hpt, Hpi; lia|].
      rewrite Hi', Hpi. lia.
Qed.

Lemma navigation_stays_in_range_witness :
  _currentTodoIndex (handlePrevious (handleNext Scenario.browsing))
  = _currentTodoIndex Scenario.browsing.
Proof.
  destruct (navigation_stays_in_range Scenario.browsing
              ltac:(vm_compute; lia))
    as (_ & _ & _ & _ & _ & _ & H & _).
  apply H. vm_compute. lia.
Defined.

Lemma findIndex_spec {A} (test : A -> bool) (l : list A) :
  match findIndex test l with
  | Some i => exists x, nth_error l i = Some x /\ test x = true
              /\ forall j y, j < i -> nth_error l j = Some y -> test y = false
  | None => forall x, In x l -> test x = false
  end.
Proof.
  induction l as [|a l IH]; simpl.
  - intros x [].
  - destruct (test a) eqn:E.
    + exists a. split; [reflexivity|]. split; [exact E|]. intros j y Hj. lia.
    + destruct (findIndex test l) as [i|]; simpl.
      * destruct IH as (x & Hx & Ht & Hmin). exists x.
        split; [exact Hx|]. split; [exact Ht|].
        intros [|j] y Hj Hy; simpl in Hy.
        -- injection Hy as <-. exact E.
        -- apply (Hmin j y); [lia|exact Hy].
      * intros x [<-|Hx]; [exact E|apply IH; exact Hx].
Qed.

Lemma sameLocation_spec a b :
  sameLocation a b = true
  <-> file b = file a /\ Manager.line b = Manager.line a
      /\ column b = column a.
Proof.
  unfold sameLocation.
  rewrite !andb_true_iff, String.eqb_eq, !Nat.eqb_eq. tauto.
Qed.

(** X14: when the panel has a current annotation and the grouping of
    its file has an entry at the requested index, [selectTodoInFile]
    reports no error and changes at most the current index: if the
    panel's list has an annotation with the file, line and column of
    that entry, the index moves to the first such annotation; if it has
    none, the panel is unchanged. *)
Theorem selectTodoInFile_lands_on_location (index : nat)
  (p : TodoPanelProvider) (current selected : Todo)
  (Hcur : nth_error (_todos p) (_currentTodoIndex p) = Some current)
  (Hsel : nth_error (getTodosInFile (_todoManager p) (file current)) index
          = Some selected) :
  snd (selectTodoInFile index p) = []
  /\ _todos (fst (selectTodoInFile index p)) = _todos p
  /\ _todoManager (fst (selectTodoInFile index p)) = _todoManager p
  /\ ((exists t, In t (_todos p) /\ sameLocation selected t = true) ->
      exists t,
        nth_error (_todos p) (_currentTodoIndex (fst (selectTodoInFile index p)))
        = Some t
        /\ file t = file selected
        /\ Manager.line t = Manager.line selected
        /\ column t = column selected
        /\ forall j u, j < _currentTodoIndex (fst (selectTodoInFile index p)) ->
                       nth_error (_todos p) j = Some u ->
                       sameLocation selected u = false)
  /\ ((forall t, In t (_todos p) -> sameLocation selected t = false) ->
      fst (selectTodoInFile index p) = p).
Proof.
  unfold selectTodoInFile. rewrite Hcur. cbv zeta. rewrite Hsel.
  pose proof (findIndex_spec (sameLocation selected) (_todos p)) as Hfi.
  destruct (findIndex (sameLocation selected) (_todos p)) as [i|]; cbn.
  - destruct Hfi as (x & Hx & Ht & Hmin).
    repeat split; try reflexivity.
    + intros _. exists x. apply sameLocation_spec in Ht as (H1 & H2 & H3).
      repeat split; assumption.
    + intros Hnone. apply nth_error_In in Hx. rewrite (Hnone x Hx) in Ht.
      discriminate.
  - repeat split; try reflexivity.
    intros (t & Hin & Ht). rewrite (Hfi t Hin) in Ht. discriminate.
Qed.

Lemma selectTodoInFile_witness :
  snd (selectTodoInFile 2 Scenario.browsing) = []
  /\ _todos (fst (selectTodoInFile 2 Scenario.browsing))
     = _todos Scenario.browsing.
Proof.
  destruct (selectTodoInFile_lands_on_location 2 Scenario.browsing
              (mkTodo "[TODO] one" "/w/a.ts" 0 0
                 (mkRange (mkPosition 0 0) (mkPosition 0 12)) None)
              (mkTodo "[HACK] three" "/w/a.ts" 2 0
                 (mkRange (mkPosition 2 0) (mkPosition 2 13)) None)
              ltac:(vm_compute; reflexivity)
              ltac:(vm_compute; reflexivity))
    as (H1 & H2 & _).
  split; [exact H1|exact H2].
Defined.

End PanelFacts.

(** ** What the extractor can produce *)

Section LanguageFacts.
Import Regex Extractor Language Extension.

Lemma single_sound p k c c' :
  single p k c = Some c' ->
  exists c1 x, k c1 = Some c' /\ rest c = x :: rest c1
               /\ pos c1 = pos c + 1 /\ p x = true /\ caps c1 = caps c.
Proof.
  unfold single. destruct (rest c) as [|x xs] eqn:E; [discriminate|].
  destruct (p x) eqn:Ep; [|discriminate]. intros H.
  exists (advance c), x. split; [exact H|].
  unfold advance. cbn [pos rest caps]. rewrite E.
  split; [reflexivity|]. split; [lia|]. split; [exact Ep|reflexivity].
Qed.

(** A successful match has read a word of the pattern before going
    through its continuation; a pattern without groups leaves the
    captures alone. *)
Lemma run_sound r : forall k c c',
  run r k c = Some c' ->
  exists c1 w, k c1 = Some c'
               /\ rest c = (w ++ rest c1)%list
               /\ pos c1 = pos c + length w
               /\ accepts r w
               /\ (ngroups r = 0 -> caps c1 = caps c).
Proof.
  induction r as [| a | | | cs | | r1 IH1 r2 IH2 | r1 IH1 r2 IH2 | r1 IH1
                 | r1 IH1 | r1 IH1 | n r1 IH1]; intros k c c' H; simpl in H.
  - exists c, []. cbn. repeat split; auto.
  - apply single_sound in H as (c1 & x & Hk & Hr & Hp & Hx & Hc).
    exists c1, [x]. cbn. repeat split; auto.
    exists x. split; [reflexivity|]. apply Ascii.eqb_eq. exact Hx.
  - apply single_sound in H as (c1 & x & Hk & Hr & Hp & Hx & Hc).
    exists c1, [x]. cbn. repeat split; auto.
    exists x. split; [reflexivity|]. apply negb_true_iff. exact Hx.
  - apply single_sound in H as (c1 & x & Hk & Hr & Hp & Hx & Hc).
    exists c1, [x]. cbn. repeat split; auto. exists x. auto.
  - apply single_sound in H as (c1 & x & Hk & Hr & Hp & Hx & Hc).
    exists c1, [x]. cbn. repeat split; auto.
    exists x. split; [reflexivity|].
    apply existsb_exists in Hx as (y & Hy & Hxy). exists y.
    split; [exact Hy|]. apply Ascii.eqb_eq. exact Hxy.
  - exists c, []. cbn. repeat split; auto.
    destruct (rest c) as [|x xs]; [exact H|].
    destruct (Js.isLineTerminator x); [exact H|discriminate].
  - apply IH1 in H as (c1 & w1 & H & Hr1 & Hp1 & Ha1 & Hc1).
    apply IH2 in H as (c2 & w2 & H & Hr2 & Hp2 & Ha2 & Hc2).
    exists c2, (w1 ++ w2)%list. split; [exact H|].
    split; [rewrite Hr1, Hr2, app_assoc; reflexivity|].
    split; [rewrite Hp2, Hp1, length_app; lia|].
    split; [exists w1, w2; auto|].
    cbn. intros Hn. rewrite Hc2, Hc1 by lia. reflexivity.
  - apply orElse_inv in H as [H|H].
    + apply IH1 in H as (c1 & w & H & Hr & Hp & Ha & Hc).
      exists c1, w. split; [exact H|]. split; [exact Hr|].
      split; [exact Hp|]. split; [left; exact Ha|].
      cbn. intros Hn. apply Hc. lia.
    + apply IH2 in H as (c1 & w & H & Hr & Hp & Ha & Hc).
      exists c1, w. split; [exact H|]. split; [exact Hr|].
      split; [exact Hp|]. split; [right; exact Ha|].
      cbn. intros Hn. apply Hc. lia.
  - apply orElse_inv in H as [H|H].
    + apply IH1 in H as (c1 & w & H & Hr & Hp & Ha & Hc).
      destruct (pos c <? pos c1); [|discriminate].
      exists c1, w. split; [exact H|]. split; [exact Hr|].
      split; [exact Hp|]. split; [right; exact Ha|exact Hc].
    + exists c, []. cbn. split; [exact H|]. split; [reflexivity|].
      split; [lia|]. split; [left; reflexivity|reflexivity].
  - remember (length (rest c)) as fuel eqn:Ef. clear Ef. revert c H.
    induction fuel as [|fuel IHf]; intros c H; simpl in H.
    + exists c, []. cbn. repeat split; auto. exists []. split; auto.
    + apply orElse_inv in H as [H|H].
      * apply IH1 in H as (c1 & w1 & H & Hr1 & Hp1 & Ha1 & Hc1).
        destruct (pos c <? pos c1); [|discriminate].
        apply IHf in H as (c2 & w2 & H & Hr2 & Hp2 & (ws & Hws & Hall) & Hc2).
        exists c2, (w1 ++ w2)%list. split; [exact H|].
        split; [rewrite Hr1, Hr2, app_assoc; reflexivity|].
        split; [rewrite Hp2, Hp1, length_app; lia|].
        split; [exists (w1 :: ws); split;
                [rewrite Hws; reflexivity|constructor; assumption]|].
        cbn in *. intros Hn. rewrite Hc2, Hc1 by assumption. reflexivity.
      * exists c, []. cbn. repeat split; auto. exists []. split; auto.
  - apply IH1 in H as (c0 & w0 & H & Hr0 & Hp0 & Ha0 & Hc0).
    assert (Hloop : exists c1 w, k c1 = Some c'
              /\ rest c0 = (w ++ rest c1)%list
              /\ pos c1 = pos c0 + length w
              /\ (exists ws, w = concat ws /\ Forall (accepts r1) ws)
              /\ (ngroups r1 = 0 -> caps c1 = caps c0)).
    { clear Hr0 Hp0 Hc0. revert c0 H. generalize (length (rest c)).
      intros fuel. induction fuel as [|fuel IHf]; intros c0 H; simpl in H.
      - exists c0, []. cbn. repeat split; auto. exists []. split; auto.
      - apply orElse_inv in H as [H|H].
        + exists c0, []. cbn. repeat split; auto. exists []. split; auto.
        + apply IH1 in H as (c1 & w1 & H & Hr1 & Hp1 & Ha1 & Hc1).
          destruct (pos c0 <? pos c1); [|discriminate].
          apply IHf in H
            as (c2 & w2 & H & Hr2 & Hp2 & (ws & Hws & Hall) & Hc2).
          exists c2, (w1 ++ w2)%list. split; [exact H|].
          split; [rewrite Hr1, Hr2, app_assoc; reflexivity|].
          split; [rewrite Hp2, Hp1, length_app; lia|].
          split; [exists (w1 :: ws); split;
                  [rewrite Hws; reflexivity|constructor; assumption]|].
          intros Hn. rewrite Hc2, Hc1 by assumption. reflexivity. }
    destruct Hloop as (c1 & w & Hk & Hr & Hp & (ws & Hws & Hall) & Hc).
    exists c1, (w0 ++ w)%list. split; [exact Hk|].
    split; [rewrite Hr0, Hr, app_assoc; reflexivity|].
    split; [rewrite Hp, Hp0, length_app; lia|].
    split; [exists w0, ws; rewrite Hws; auto|].
    cbn. intros Hn. rewrite Hc, Hc0 by assumption. reflexivity.
  - apply IH1 in H as (c1 & w & H & Hr & Hp & Ha & Hc).
    eexists _, w. split; [exact H|]. cbn. repeat split; auto. discriminate.
Qed.

Lemma ngroups_lift k r : ngroups (lift k r) = ngroups r.
Proof. induction r; simpl; congruence. Qed.

Lemma accepts_lift k r : forall w, accepts (lift k r) w <-> accepts r w.
Proof.
  induction r as [| a | | | cs | | r1 IH1 r2 IH2 | r1 IH1 r2 IH2 | r1 IH1
                 | r1 IH1 | r1 IH1 | n r1 IH1]; intros w; simpl;
    try reflexivity.
  - split; intros (w1 & w2 & H & H1 & H2); exists w1, w2;
      (split; [exact H|]); (split; [apply IH1|apply IH2]); assumption.
  - rewrite IH1, IH2. reflexivity.
  - rewrite IH1. reflexivity.
  - split; intros (ws & H & Hall); exists ws; (split; [exact H|]);
      eapply Forall_impl; try exact Hall; intros x; apply IH1.
  - split; intros (w1 & ws & H & H1 & Hall); exists w1, ws;
      (split; [exact H|]); (split; [apply IH1; exact H1|]);
      eapply Forall_impl; try exact Hall; intros x; apply IH1.
  - apply IH1.
Qed.

Lemma firstn_app_exact {A} (w l : list A) n :
  n = length w -> firstn n (w ++ l) = w.
Proof.
  intros ->. rewrite firstn_app, Nat.sub_diag, firstn_all. simpl.
  apply app_nil_r.
Qed.

(** What a match of the extractor's expression captures, for a
    configured pattern without groups of its own: a word of the pattern
    as first group and a run of at least one character, none of them a
    line terminator, as second. *)
Lemma matchAt_shape pattern i input m :
  ngroups pattern = 0 ->
  matchAt (todoRegex pattern) i input = Some m ->
  exists w1 w2,
    groups m = [(2, w2); (1, w1)]
    /\ accepts pattern w1
    /\ w2 <> []
    /\ Forall (fun x => Js.isLineTerminator x = false) w2.
Proof.
  intros Hng. unfold matchAt.
  destruct (run (todoRegex pattern) Some (Conf i input [])) as [c|] eqn:E;
    [|discriminate].
  intros H. injection H as <-. cbn [groups].
  unfold todoRegex in E. rewrite Hng in E.
  change (run (Seq ?a ?b) ?k ?c) with (run a (run b k) c) in E.
  apply run_sound in E as (cA & wA & E & _ & _ & _ & HcA).
  specialize (HcA eq_refl). cbn [caps] in HcA.
  change (run (Seq (Grp 1 ?p) ?b) ?k cA)
    with (run p (fun c' => run b k
                    (Conf (pos c') (rest c')
                          ((1, firstn (pos c' - pos cA) (rest cA))
                             :: caps c'))) cA) in E.
  apply run_sound in E as (cP & w1 & E & HrP & HpP & HaP & HcP).
  rewrite ngroups_lift in HcP. specialize (HcP Hng).
  rewrite HrP, HpP, HcP, HcA in E.
  replace (pos cA + length w1 - pos cA) with (length w1) in E by lia.
  rewrite (firstn_app_exact w1) in E by reflexivity.
  change (run (Seq ?a ?b) ?k ?c) with (run a (run b k) c) in E.
  apply run_sound in E as (cO & wO & E & _ & _ & _ & HcO).
  specialize (HcO eq_refl). cbn [caps] in HcO.
  change (run (Seq ?a ?b) ?k ?c) with (run a (run b k) c) in E.
  apply run_sound in E as (cS & wS & E & _ & _ & _ & HcS).
  specialize (HcS eq_refl).
  change (run (Seq (Grp ?n ?p) ?b) ?k cS)
    with (run p (fun c' => run b k
                    (Conf (pos c') (rest c')
                          ((n, firstn (pos c' - pos cS) (rest cS))
                             :: caps c'))) cS) in E.
  apply run_sound in E as (cM & w2 & E & HrM & HpM & HaM & HcM).
  specialize (HcM eq_refl).
  rewrite HrM, HpM, HcM, HcS, HcO in E.
  replace (pos cS + length w2 - pos cS) with (length w2) in E by lia.
  rewrite (firstn_app_exact w2) in E by reflexivity.
  apply run_sound in E as (cZ & wZ & E & _ & _ & _ & HcZ).
  injection E as ->. rewrite (HcZ eq_refl). cbn [caps].
  exists w1, w2. split; [reflexivity|].
  split; [apply accepts_lift in HaP; exact HaP|].
  destruct HaM as (x & ws & Hw & (y & -> & Hy) & Hall).
  split; [rewrite Hw; discriminate|].
  rewrite Hw. constructor; [exact Hy|].
  clear Hw. induction Hall as [|w ws (z & -> & Hz) _ IH]; [constructor|].
  simpl. constructor; assumption.
Qed.

Lemma execFrom_from r P :
  (forall i input m, matchAt r i input = Some m -> P m) ->
  forall input i m, execFrom r i input = Some m -> P m.
Proof.
  intros HP. induction input as [|x input IH]; intros i m H; simpl in H.
  - destruct (matchAt r i []) eqn:E; [|discriminate].
    injection H as ->. exact (HP _ _ _ E).
  - destruct (matchAt r i (x :: input)) eqn:E.
    + injection H as ->. exact (HP _ _ _ E).
    + exact (IH _ _ H).
Qed.

Lemma execLoop_from r P content :
  (forall i input m, matchAt r i input = Some m -> P m) ->
  forall fuel i, Forall P (execLoop fuel r content i).
Proof.
  intros HP. induction fuel as [|fuel IH]; intros i; simpl; [constructor|].
  destruct (execFrom r i (skipn i content)) as [m|] eqn:E; [|constructor].
  constructor; [|apply IH]. exact (execFrom_from r P HP _ _ _ E).
Qed.

Lemma toUpperCase_list w :
  Js.toUpperCase (string_of_list_ascii w)
  = string_of_list_ascii (map Js.upper w).
Proof. induction w as [|a w IH]; simpl; [reflexivity|]. rewrite IH. reflexivity. Qed.

Lemma accepts_lit s : forall w,
  s <> EmptyString ->
  accepts (lit s) w ->
  map Js.upper w = map Js.upper (list_ascii_of_string s).
Proof.
  induction s as [|a s IH]; intros w Hs H; [congruence|].
  destruct s as [|b s].
  - simpl in H. destruct H as (x & -> & Hx). simpl. rewrite Hx. reflexivity.
  - change (lit (String a (String b s)))
      with (Seq (Chr a) (lit (String b s))) in H.
    destruct H as (w1 & w2 & -> & (x & -> & Hx) & H2).
    simpl. rewrite Hx. f_equal. apply (IH w2); [discriminate|exact H2].
Qed.

Ltac marker_case H :=
  match type of H with
  | accepts (lit ?s) _ =>
      apply accepts_lit in H; [|discriminate];
      exists s; split; [unfold markers; simpl; tauto|exact H]
  end.

Lemma accepts_default w :
  accepts defaultPattern w ->
  exists mk, In mk markers
             /\ map Js.upper w = list_ascii_of_string mk.
Proof.
  unfold defaultPattern, alts. intros H.
  repeat match type of H with
         | accepts (Alt ?a ?b) _ =>
             change (accepts a w \/ accepts b w) in H;
             destruct H as [H|H]; [marker_case H|]
         end.
  marker_case H.
Qed.

Lemma trim_marker mk : In mk markers -> Js.trim mk = mk.
Proof.
  unfold markers. simpl.
  intros H. repeat (destruct H as [<-|H]; [vm_compute; reflexivity|]).
  contradiction.
Qed.

Lemma trimStart_chars s x :
  In x (list_ascii_of_string (Js.trimStart s)) ->
  In x (list_ascii_of_string s).
Proof.
  induction s as [|a s IH]; simpl; [auto|].
  destruct (Js.isSpace a); simpl; auto.
Qed.

Lemma trimEnd_chars s x :
  In x (list_ascii_of_string (Js.trimEnd s)) ->
  In x (list_ascii_of_string s).
Proof.
  induction s as [|a s IH]; simpl; [auto|].
  destruct (Js.trimEnd s) as [|b t] eqn:E.
  - destruct (Js.isSpace a); simpl; [contradiction|].
    intros [H|[]]. left. exact H.
  - simpl. intros [H|H]; [left; exact H|right]. apply IH. exact H.
Qed.

Lemma trim_chars s x :
  In x (list_ascii_of_string (Js.trim s)) -> In x (list_ascii_of_string s).
Proof. intros H. apply trimStart_chars, trimEnd_chars, H. Qed.

Lemma filter_all_in {A} (p : A -> bool) l :
  (forall a, In a l -> p a = true) -> List.filter p l = l.
Proof.
  induction l as [|a l IH]; intros H; [reflexivity|]. simpl.
  rewrite (H a) by (left; reflexivity). f_equal. apply IH.
  intros b Hb. apply H. right. exact Hb.
Qed.

Lemma string_nonempty w : w <> [] -> Js.truthy (string_of_list_ascii w) = true.
Proof. destruct w; [congruence|reflexivity]. Qed.

(** The kinds a pattern without groups of its own can give, when every
    word it reads is, in upper case, one of [ks]. *)
Lemma extract_kinds pattern (ks : list string) :
  ngroups pattern = 0 ->
  (forall w, accepts pattern w ->
     exists k, In k ks /\ map Js.upper w = list_ascii_of_string k) ->
  (forall k, In k ks -> Js.trim k = k /\ k <> EmptyString) ->
  forall content,
    extract pattern content = map candidateOf (matches pattern content)
    /\ forall c, In c (extract pattern content) ->
         In (kind c) ks
         /\ forall x, In x (list_ascii_of_string (message c)) ->
                      Js.isLineTerminator x = false.
Proof.
  intros Hng Hacc Hks content.
  assert (Hshape : Forall
            (fun m => exists w1 w2, groups m = [(2, w2); (1, w1)]
                        /\ accepts pattern w1 /\ w2 <> []
                        /\ Forall (fun x => Js.isLineTerminator x = false) w2)
            (matches pattern content)).
  { unfold matches. apply execLoop_from. intros i input m H.
    exact (matchAt_shape pattern i input m Hng H). }
  assert (Hem : forall m, In m (matches pattern content) ->
                          emitted m = true
                          /\ In (todoType m) ks
                          /\ forall x, In x (list_ascii_of_string (todoText m))
                                       -> Js.isLineTerminator x = false).
  { intros m Hm. rewrite Forall_forall in Hshape.
    destruct (Hshape m ltac:(apply list_elem_of_In; exact Hm))
      as (w1 & w2 & Hg & Ha & Hne & Hlt).
    destruct (Hacc w1 Ha) as (mk & Hmk & Hup).
    destruct (Hks mk Hmk) as [Htrim Hmk0].
    assert (Hc1 : capture m 1 = string_of_list_ascii w1)
      by (unfold capture, group; rewrite Hg; reflexivity).
    assert (Hc2 : capture m 2 = string_of_list_ascii w2)
      by (unfold capture, group; rewrite Hg; reflexivity).
    split; [|split].
    - unfold emitted. rewrite Hc1, Hc2, (string_nonempty w2 Hne).
      rewrite andb_true_r. apply string_nonempty. intros ->.
      simpl in Hup. destruct mk; [congruence|discriminate].
    - unfold todoType. rewrite Hc1, toUpperCase_list, Hup.
      rewrite string_of_list_ascii_of_string, Htrim.
      exact Hmk.
    - intros x Hx. unfold todoText in Hx. rewrite Hc2 in Hx.
      apply trim_chars in Hx. rewrite list_ascii_of_string_of_list_ascii in Hx.
      rewrite List.Forall_forall in Hlt. exact (Hlt x Hx). }
  split.
  - unfold extract. f_equal. apply filter_all_in. intros m Hm.
    apply Hem. exact Hm.
  - intros c Hc. unfold extract in Hc. apply in_map_iff in Hc as (m & <- & Hm).
    apply filter_In in Hm as [Hm _]. destruct (Hem m Hm) as (_ & Hk & Hmsg).
    split; [exact Hk|exact Hmsg].
Qed.

(** X15: with the default pattern the guard [match[1] && match[2]]
    rejects no match; the kind of every annotation is one of the eleven
    markers, in upper case, and no message contains a line
    terminator. *)
Theorem default_pattern_annotations (content : string) :
  extract defaultPattern content
  = map candidateOf (matches defaultPattern content)
  /\ forall c, In c (extract defaultPattern content) ->
       In (kind c) markers
       /\ forall x, In x (list_ascii_of_string (message c)) ->
                    Js.isLineTerminator x = false.
Proof.
  apply (extract_kinds defaultPattern markers eq_refl accepts_default).
  intros k Hk. split; [apply trim_marker; exact Hk|].
  unfold markers in Hk. simpl in Hk.
  repeat (destruct Hk as [<-|Hk]; [discriminate|]). contradiction.
Qed.

Lemma accepts_activated w :
  accepts activatedPattern w ->
  exists k, In k ["TODO"; "TODO:"]
            /\ map Js.upper w = list_ascii_of_string k.
Proof.
  unfold activatedPattern.
  intros (w1 & w2 & -> & H1 & H2).
  apply accepts_lit in H1; [|discriminate].
  rewrite map_app, H1.
  destruct H2 as [->|(x & -> & Hx)].
  - exists "TODO". split; [left; reflexivity|reflexivity].
  - exists "TODO:". split; [right; left; reflexivity|].
    simpl. rewrite Hx. reflexivity.
Qed.

(** X20: with the pattern [TODO:?] that [activate] writes to the
    settings, the guard rejects no match and the kind of every
    annotation is [TODO] or [TODO:]: the optional colon belongs to the
    first group and is taken whenever it is there, so the comment
    [// TODO: one] is listed with kind [TODO:], and the [FIXME] and
    [hack] comments next to it are not found. *)
Theorem activated_pattern_annotations (content : string) :
  (extract activatedPattern content
   = map candidateOf (matches activatedPattern content)
   /\ forall c, In c (extract activatedPattern content) ->
        kind c = "TODO" \/ kind c = "TODO:")
  /\ map (fun c => (kind c, message c))
         (extract activatedPattern Scenario.threeTodos)
     = [("TODO:", "one")].
Proof.
  split; [|vm_compute; reflexivity].
  destruct (extract_kinds activatedPattern ["TODO"; "TODO:"] eq_refl
              accepts_activated) with (content := content) as [H1 H2].
  - intros k [<-|[<-|[]]]; split; try (vm_compute; reflexivity);
      discriminate.
  - split; [exact H1|]. intros c Hc. destruct (H2 c Hc) as [[<-|[<-|[]]] _];
      auto.
Qed.

Lemma execLoop_sorted r content :
  consumes r = true ->
  forall fuel i,
    StronglySorted (fun a b => lastIndexOf a <= index b)
                   (execLoop fuel r content i)
    /\ Forall (fun m => i <= index m /\ index m < lastIndexOf m
                        /\ lastIndexOf m <= length content)
              (execLoop fuel r content i).
Proof.
  intros Hr. induction fuel as [|fuel IH]; intros i; simpl.
  - split; constructor.
  - destruct (execFrom r i (skipn i content)) as [m|] eqn:E;
      [|split; constructor].
    apply execFrom_inv in E. rewrite Hr, length_skipn in E. simpl in E.
    destruct (IH (lastIndexOf m)) as [Hs Hf]. split.
    + constructor; [exact Hs|].
      eapply List.Forall_impl; [|exact Hf]. intros m' H. cbn in H. lia.
    + constructor; [lia|].
      eapply List.Forall_impl; [|exact Hf]. intros m' H. cbn in H. lia.
Qed.

Lemma StronglySorted_filter {A} (R : A -> A -> Prop) (p : A -> bool) l :
  StronglySorted R l -> StronglySorted R (List.filter p l).
Proof.
  induction 1 as [|a l Hs IH Hf]; simpl; [constructor|].
  destruct (p a); [|exact IH]. constructor; [exact IH|].
  rewrite List.Forall_forall in *. intros x Hx.
  apply filter_In in Hx as [Hx _]. exact (Hf x Hx).
Qed.

Lemma StronglySorted_map {A B} (R : A -> A -> Prop) (S : B -> B -> Prop)
  (f : A -> B) l :
  (forall a b, R a b -> S (f a) (f b)) ->
  StronglySorted R l -> StronglySorted S (map f l).
Proof.
  intros HRS. induction 1 as [|a l Hs IH Hf]; simpl; [constructor|].
  constructor; [exact IH|]. rewrite List.Forall_forall in *.
  intros y Hy. apply in_map_iff in Hy as (x & <- & Hx).
  apply HRS, Hf, Hx.
Qed.

Lemma length_list_ascii_of_string s :
  length (list_ascii_of_string s) = String.length s.
Proof. induction s as [|a s IH]; simpl; [reflexivity|]. rewrite IH. reflexivity. Qed.

(** X16: for any pattern, the annotations of a text come in source
    order and do not overlap (each ends before the next one starts);
    each spans at least one character and lies inside the text, so that
    there are at most as many annotations as the text has
    characters. *)
Theorem annotations_in_source_order (pattern : re) (content : string) :
  StronglySorted (fun a b => endOffset a <= startOffset b)
                 (extract pattern content)
  /\ Forall (fun c => startOffset c < endOffset c
                      /\ endOffset c <= String.length content)
            (extract pattern content)
  /\ length (extract pattern content) <= String.length content.
Proof.
  destruct (execLoop_sorted (todoRegex pattern)
              (list_ascii_of_string content) eq_refl
              (S (length (list_ascii_of_string content))) 0) as [Hs Hf].
  fold (matches pattern content) in Hs, Hf.
  rewrite length_list_ascii_of_string in Hf.
  assert (Hs' : StronglySorted (fun a b => endOffset a <= startOffset b)
                               (extract pattern content)).
  { unfold extract.
    apply (StronglySorted_map (fun a b => lastIndexOf a <= index b));
      [intros a b H; exact H|].
    apply StronglySorted_filter. exact Hs. }
  assert (Hf' : Forall (fun c => startOffset c < endOffset c
                                 /\ endOffset c <= String.length content)
                       (extract pattern content)).
  { unfold extract. rewrite List.Forall_forall in *.
    intros c Hc. apply in_map_iff in Hc as (m & <- & Hm).
    apply filter_In in Hm as [Hm _]. cbn. specialize (Hf m Hm). cbn in Hf.
    lia. }
  split; [exact Hs'|]. split; [exact Hf'|].
  (* each annotation ends at least one character after the one before *)
  assert (Hlen : forall l bound,
            StronglySorted (fun a b => endOffset a <= startOffset b) l ->
            Forall (fun c => startOffset c < endOffset c
                             /\ endOffset c <= bound) l ->
            length l <= bound).
  { induction l as [|c l IH] using rev_ind; intros bound Hsl Hfl;
      [simpl; lia|].
    rewrite length_app. simpl.
    apply List.Forall_app in Hfl as [Hfl Hc].
    apply Forall_inv in Hc.
    assert (Hbefore : Forall (fun a => endOffset a <= startOffset c) l).
    { clear - Hsl. induction l as [|a l IHl]; [constructor|].
      simpl in Hsl. apply StronglySorted_inv in Hsl as [Hsl Ha].
      constructor.
      - rewrite List.Forall_forall in Ha. apply Ha, in_or_app. right. left.
        reflexivity.
      - apply IHl. exact Hsl. }
    assert (Hl : length l <= startOffset c).
    { apply IH.
      - clear - Hsl. induction l as [|a l IHl]; [constructor|].
        simpl in Hsl. apply StronglySorted_inv in Hsl as [Hsl Ha].
        constructor; [apply IHl; exact Hsl|].
        apply List.Forall_app in Ha as [Ha _]. exact Ha.
      - rewrite List.Forall_forall in *. intros a Ha.
        specialize (Hfl a Ha). specialize (Hbefore a Ha). cbn in *. lia. }
    lia. }
  apply Hlen; assumption.
Qed.

End LanguageFacts.

(** ** Status listeners *)

Section ListenerFacts.
Import Vscode Manager Listeners.

Lemma indexOf_first x l1 l2 :
  ~ In x l1 -> indexOf x (l1 ++ x :: l2) = Some (length l1).
Proof.
  induction l1 as [|a l1 IH]; intros H; simpl.
  - rewrite Nat.eqb_refl. reflexivity.
  - destruct (Nat.eqb_spec a x) as [->|_]; [exfalso; apply H; left; reflexivity|].
    rewrite IH; [reflexivity|]. intros Hin. apply H. right. exact Hin.
Qed.

Lemma indexOf_absent x l : ~ In x l -> indexOf x l = None.
Proof.
  induction l as [|a l IH]; intros H; simpl; [reflexivity|].
  destruct (Nat.eqb_spec a x) as [->|_]; [exfalso; apply H; left; reflexivity|].
  rewrite IH; [reflexivity|]. intros Hin. apply H. right. exact Hin.
Qed.

Lemma splice1_middle {A} (l1 : list A) x l2 :
  splice1 (length l1) (l1 ++ x :: l2) = (l1 ++ l2)%list.
Proof. induction l1 as [|a l1 IH]; simpl; [reflexivity|]. rewrite IH. reflexivity. Qed.

(** X17: disposing the handle [onStatusChange] returned removes the
    first registration of the listener and keeps the other entries in
    order; registering a listener that was not registered and disposing
    it restores the list, and with it whom [updateStatus] notifies;
    disposing a listener that is not registered changes nothing. *)
Theorem dispose_removes_first_registration (x : Listener)
  (l1 l2 : list Listener)
  (Hx : ~ In x l1) :
  disposeListener x (l1 ++ x :: l2)%list = (l1 ++ l2)%list
  /\ disposeListener x (onStatusChange x l1) = l1
  /\ disposeListener x l1 = l1
  /\ forall s, notified (disposeListener x (onStatusChange x l1)) s
               = notified l1 s.
Proof.
  assert (H1 : forall l2, disposeListener x (l1 ++ x :: l2)%list
                          = (l1 ++ l2)%list).
  { intros l. unfold disposeListener. rewrite (indexOf_first x l1 l Hx).
    apply splice1_middle. }
  assert (H2 : disposeListener x (onStatusChange x l1) = l1).
  { unfold onStatusChange. rewrite H1, app_nil_r. reflexivity. }
  split; [apply H1|]. split; [exact H2|]. split.
  - unfold disposeListener. rewrite (indexOf_absent x l1 Hx). reflexivity.
  - intros s. rewrite H2. reflexivity.
Qed.

Lemma dispose_removes_first_registration_witness :
  disposeListener 7 [1; 7; 2; 7] = [1; 2; 7].
Proof.
  apply (dispose_removes_first_registration 7 [1] [2; 7]).
  intros [H|[]]. discriminate H.
Defined.

End ListenerFacts.

(** ** The author that git blame reports *)

Section BlameFacts.
Import Vscode Manager GitBlame.

Lemma stripPrefix_sound p : forall s r,
  stripPrefix p s = Some r -> s = (p ++ r)%list.
Proof.
  induction p as [|a p IH]; intros s r H; simpl in H.
  - injection H as ->. reflexivity.
  - destruct s as [|x s]; [discriminate|].
    destruct (Ascii.eqb_spec a x) as [->|_]; [|discriminate].
    simpl. f_equal. apply IH. exact H.
Qed.

Lemma lineHead_split s :
  Forall (fun x => Js.isLineTerminator x = false) (lineHead s)
  /\ exists after, s = (lineHead s ++ after)%list
       /\ (after = [] \/ exists x a, after = x :: a
                                     /\ Js.isLineTerminator x = true).
Proof.
  induction s as [|x s [IHf (after & IHs & IHa)]]; simpl.
  - split; [constructor|]. exists []. auto.
  - destruct (Js.isLineTerminator x) eqn:E.
    + split; [constructor|]. exists (x :: s). split; [reflexivity|].
      right. exists x, s. auto.
    + split; [constructor; assumption|]. exists after.
      split; [simpl; f_equal; exact IHs|exact IHa].
Qed.

Lemma authorFrom_sound : forall s b name,
  authorFrom b s = Some name ->
  name <> []
  /\ Forall (fun x => Js.isLineTerminator x = false) name
  /\ exists before after,
       s = (before ++ authorPrefix ++ name ++ after)%list
       /\ (before = [] -> b = true)
       /\ (before = [] \/ exists b0 x, before = (b0 ++ [x])%list
                                       /\ Js.isLineTerminator x = true)
       /\ (after = [] \/ exists x a, after = x :: a
                                     /\ Js.isLineTerminator x = true).
Proof.
  assert (Hhere : forall s b name, authorHere b s = Some name ->
            name <> []
            /\ Forall (fun x => Js.isLineTerminator x = false) name
            /\ b = true
            /\ exists after, s = (authorPrefix ++ name ++ after)%list
                 /\ (after = [] \/ exists x a, after = x :: a
                                     /\ Js.isLineTerminator x = true)).
  { intros s b name H. unfold authorHere in H.
    destruct b; [|discriminate].
    destruct (stripPrefix authorPrefix s) as [r|] eqn:E; [|discriminate].
    apply stripPrefix_sound in E.
    destruct (lineHead_split r) as (Hf & after & Hr & Ha).
    destruct (lineHead r) as [|y n] eqn:En; [discriminate|].
    injection H as <-. split; [discriminate|]. split; [exact Hf|].
    split; [reflexivity|]. exists after. split; [|exact Ha].
    rewrite E, Hr. reflexivity. }
  induction s as [|x s IH]; intros b name H; simpl in H.
  - destruct (authorHere b []) as [n|] eqn:E; [|discriminate].
    injection H as ->. destruct (Hhere _ _ _ E) as (H1 & H2 & H3 & after & H4 & H5).
    split; [exact H1|]. split; [exact H2|]. exists [], after. auto.
  - destruct (authorHere b (x :: s)) as [n|] eqn:E.
    + injection H as ->.
      destruct (Hhere _ _ _ E) as (H1 & H2 & H3 & after & H4 & H5).
      split; [exact H1|]. split; [exact H2|]. exists [], after. auto.
    + destruct (IH _ _ H) as (H1 & H2 & before & after & H3 & H4 & H5 & H6).
      split; [exact H1|]. split; [exact H2|].
      exists (x :: before), after. split; [rewrite H3; reflexivity|].
      split; [discriminate|]. split; [|exact H6]. right.
      destruct H5 as [->|(b0 & y & -> & Hy)].
      * exists [], x. split; [reflexivity|]. apply H4. reflexivity.
      * exists (x :: b0), y. split; [reflexivity|exact Hy].
Qed.

(** X18: when the manager's [getGitAuthor] reports an author, git
    blame is enabled, the path of one of the workspace folders is a
    prefix of the file's path and the blame of line + 1 run in that
    folder succeeded; the name is not empty, holds no line terminator,
    and stands in the output right after [author ] at the start of a
    line, up to the end of that line. *)
Theorem reported_author_is_an_author_line (enabled : bool)
  (folders : list string) (blame : string -> string -> nat -> option string)
  (filePath : string) (lineNumber : nat) (name : string)
  (H : getGitAuthor enabled folders blame filePath lineNumber = Some name) :
  enabled = true
  /\ (exists folder stdout,
        In folder folders
        /\ String.prefix folder filePath = true
        /\ blame folder filePath (lineNumber + 1) = Some stdout
        /\ parseAuthor stdout = Some name
        /\ exists before after,
             list_ascii_of_string stdout
             = (before ++ authorPrefix ++ list_ascii_of_string name
                       ++ after)%list
             /\ (before = [] \/ exists b0 x, before = (b0 ++ [x])%list
                                   /\ Js.isLineTerminator x = true)
             /\ (after = [] \/ exists x a, after = x :: a
                                   /\ Js.isLineTerminator x = true))
  /\ name <> EmptyString
  /\ Forall (fun x => Js.isLineTerminator x = false)
            (list_ascii_of_string name).
Proof.
  unfold getGitAuthor in H. destruct enabled; [|discriminate].
  cbn [negb] in H.
  destruct (find _ folders) as [folder|] eqn:Ef; [|discriminate].
  apply find_some in Ef as [Hin Hpre].
  destruct (blame folder filePath (lineNumber + 1)) as [stdout|] eqn:Eb;
    [|discriminate].
  pose proof H as Hparse. unfold parseAuthor in H.
  destruct (authorFrom true (list_ascii_of_string stdout)) as [n|] eqn:E;
    [|discriminate].
  injection H as <-.
  destruct (authorFrom_sound _ _ _ E)
    as (H1 & H2 & before & after & H3 & _ & H5 & H6).
  rewrite list_ascii_of_string_of_list_ascii.
  split; [reflexivity|]. split.
  - exists folder, stdout. repeat split; try assumption.
    exists before, after. auto.
  - split; [destruct n; [congruence|discriminate]|exact H2].
Qed.

Lemma reported_author_witness :
  Forall (fun x => Js.isLineTerminator x = false)
         (list_ascii_of_string "Ada Lovelace").
Proof.
  apply (reported_author_is_an_author_line true ["/w"]
           (fun _ _ _ => Some porcelain) "/w/a.ts" 2 "Ada Lovelace").
  vm_compute. reflexivity.
Defined.

End BlameFacts.

(** ** The streaming scan and the one-shot search *)

Section OneShot.
Import Vscode Manager Results.

Lemma getInstance_pattern h inst :
  todoPattern (getInstance h inst) = defaultedPattern h
  /\ fileCache (getInstance h inst) = ∅.
Proof. destruct inst; split; reflexivity. Qed.

(** X19: in an open workspace where the enumeration of the manager
    and that of [findTodos] yield the same files, without duplicates,
    and every file can be [stat]ed, a scan by a manager just obtained
    from [getInstance] ends with the annotations that [findTodos]
    returns, in the same order, compared on text, file, line, column and
    range (the author is left out: [findTodos] asks git whatever the
    [enableGitBlame] setting is). *)
Theorem scan_agrees_with_findTodos (h : Host) (instance : option TodoManager)
  (found : list string)
  (Hws : workspaceFolders h = true)
  (Hfind : findFiles h = Some found)
  (Hnd : NoDup found)
  (Hstat : forall f, In f found -> statMtime h f <> None) :
  map located (todos (runBackground h
                        (initializeStream h (getInstance h instance))))
  = map located (fst (Finder.findTodos h)).
Proof.
  f_equal.
  rewrite (proj1 (scan_todos h _ found Hws Hfind)).
  rewrite (dedup_NoDup found Hnd).
  destruct (getInstance_pattern h instance) as [Hp Hc].
  unfold Finder.findTodos. rewrite Hws, Hfind. cbn [negb].
  transitivity (flat_map (readAndScan h (defaultedPattern h)) found).
  - apply flat_map_ext_elem. intros f Hf.
    unfold fileResult, shouldSkip. rewrite Hc, lookup_empty, Hp.
    destruct (statMtime h f) eqn:E; [reflexivity|].
    exfalso. apply (Hstat f); [apply list_elem_of_In; exact Hf|exact E].
  - destruct found as [|f0 found']; [reflexivity|].
    cbn [fst]. destruct (flat_map _ (f0 :: found')); reflexivity.
Qed.

Lemma scan_agrees_with_findTodos_witness :
  map located (todos (runBackground Scenario.small
                        (initializeStream Scenario.small
                           (getInstance Scenario.small None))))
  = map located (fst (Finder.findTodos Scenario.small)).
Proof.
  apply (scan_agrees_with_findTodos Scenario.small None
           ["/w/a.ts"; "/w/b.ts"] eq_refl eq_refl).
  - compute_done.
  - intros f [<-|[<-|[]]]; vm_compute; discriminate.
Defined.

End OneShot.
